(** * <T>LAPACK kernels: the elementary reflector [larf], its view adapter,
      [lassq], and the corner-case contract of the BLAS kernels

    The development follows [include/lapack/larf.hpp],
    [include/lapack/lassq.hpp] and [test/blas/src/test_corner_cases.cpp].

    The C++ code is generic over the scalar type (real, complex, extended
    precision) and over the vector and matrix types.  The model keeps that
    genericity: scalars are a type class [Scalar], vector types are
    instances of [VectorView], and every routine is a function over them.
    Algebraic facts are proved for scalar types that satisfy the laws of a
    commutative ring with a conjugation ([ScalarLaws]); rounding, overflow
    and non-finite values of the IEEE types are outside those laws. *)

From Stdlib Require Import ZArith Bool List Lia Ring Arith.
Import ListNotations.

(* ================================================================== *)
(** * Scalars *)
(* ================================================================== *)

(** The operations the kernels use on the element type [T]:
    [T(0)], [T(1)], [+], [*], unary [-], [conj], [real] and the test
    [x == T(0)]. *)
Class Scalar (T : Type) : Type := {
  zero : T;
  one : T;
  add : T -> T -> T;
  mul : T -> T -> T;
  neg : T -> T;
  conj : T -> T;
  real : T -> T;
  is_zero : T -> bool
}.

Definition sub {T} `{Scalar T} (x y : T) : T := add x (neg y).
Definition two {T} `{Scalar T} : T := add one one.

(** The loop [acc = 0; for (i = 0; i < n; ++i) acc += f(i);]. *)
Fixpoint sum_upto {T} `{Scalar T} (n : nat) (f : nat -> T) : T :=
  match n with
  | O => zero
  | S k => add (sum_upto k f) (f k)
  end.

(** ** Real scalars: the integers, with the trivial conjugation. *)
#[export] Instance Z_scalar : Scalar Z := {|
  zero := 0%Z;
  one := 1%Z;
  add := Z.add;
  mul := Z.mul;
  neg := Z.opp;
  conj := fun x => x;
  real := fun x => x;
  is_zero := fun x => Z.eqb x 0
|}.

(** ** Complex scalars: the Gaussian integers [re + im*i]. *)
Record gauss : Type := Gauss { re : Z; im : Z }.

Definition gauss_add (x y : gauss) : gauss :=
  Gauss (re x + re y) (im x + im y).
Definition gauss_mul (x y : gauss) : gauss :=
  Gauss (re x * re y - im x * im y) (re x * im y + im x * re y).
Definition gauss_neg (x : gauss) : gauss := Gauss (- re x) (- im x).
Definition gauss_conj (x : gauss) : gauss := Gauss (re x) (- im x).
Definition gauss_real (x : gauss) : gauss := Gauss (re x) 0.
Definition gauss_is_zero (x : gauss) : bool :=
  Z.eqb (re x) 0 && Z.eqb (im x) 0.

#[export] Instance gauss_scalar : Scalar gauss := {|
  zero := Gauss 0 0;
  one := Gauss 1 0;
  add := gauss_add;
  mul := gauss_mul;
  neg := gauss_neg;
  conj := gauss_conj;
  real := gauss_real;
  is_zero := gauss_is_zero
|}.

(** ** Scalars with a not-a-number value.

    [Num z] is an ordinary value and [NaN] is absorbing: every operation
    with a [NaN] operand is [NaN], and [NaN == 0] is false, as for the
    IEEE types the tests plant [NAN] into. *)
Inductive nanZ : Type := Num (z : Z) | NaN.

Definition nan_lift2 (f : Z -> Z -> Z) (x y : nanZ) : nanZ :=
  match x, y with
  | Num a, Num b => Num (f a b)
  | _, _ => NaN
  end.
Definition nan_lift1 (f : Z -> Z) (x : nanZ) : nanZ :=
  match x with
  | Num a => Num (f a)
  | NaN => NaN
  end.
Definition nan_is_zero (x : nanZ) : bool :=
  match x with
  | Num a => Z.eqb a 0
  | NaN => false
  end.
Definition is_nan (x : nanZ) : bool :=
  match x with
  | Num _ => false
  | NaN => true
  end.

#[export] Instance nanZ_scalar : Scalar nanZ := {|
  zero := Num 0;
  one := Num 1;
  add := nan_lift2 Z.add;
  mul := nan_lift2 Z.mul;
  neg := nan_lift1 Z.opp;
  conj := fun x => x;
  real := fun x => x;
  is_zero := nan_is_zero
|}.

(** ** Laws *)

(** [x == T(0)] decides equality with zero. *)
Class ZeroTest (T : Type) `{Scalar T} : Prop := {
  is_zero_spec : forall x : T, is_zero x = true <-> x = zero
}.

(** Exact scalars: a commutative ring with an involutive conjugation
    and a real-part projection. *)
Class ScalarLaws (T : Type) `{Scalar T} : Prop := {
  scalar_zero_test :: ZeroTest T;
  scalar_ring : ring_theory zero one add mul sub neg (@eq T);
  conj_add : forall x y : T, conj (add x y) = add (conj x) (conj y);
  conj_mul : forall x y : T, conj (mul x y) = mul (conj x) (conj y);
  conj_one : conj one = one;
  conj_conj : forall x : T, conj (conj x) = x;
  real_add : forall x y : T, real (add x y) = add (real x) (real y);
  real_mul : forall x y : T,
      real (mul (real x) (real y)) = mul (real x) (real y)
}.

(** Scalars without zero divisors (the real and complex numbers). *)
Class ScalarDomain (T : Type) `{Scalar T} : Prop := {
  domain_laws :: ScalarLaws T;
  mul_eq_zero : forall x y : T, mul x y = zero -> x = zero \/ y = zero
}.

(* ================================================================== *)
(** * Enumerations and failures *)
(* ================================================================== *)

(** [Side::Left], [Side::Right]; [Side_other] stands for every other
    value of the underlying type, such as the [Side(0)] of the tests. *)
Inductive Side : Type := Left | Right | Side_other (raw : Z).

Definition Side_eqb (a b : Side) : bool :=
  match a, b with
  | Left, Left => true
  | Right, Right => true
  | Side_other x, Side_other y => Z.eqb x y
  | _, _ => false
  end.

(** [Op::NoTrans], [Op::Trans] (the tests' [Op('T')]) and
    [Op::ConjTrans] (the tests' [Op('C')]). *)
Inductive Op : Type := NoTrans | Trans | ConjTrans.

Inductive Uplo : Type := Upper | Lower.

(** What a throwing routine raises: the recoverable argument failure of
    [blas_error_if], and the plain [std::exception] of [lassq]. *)
Inductive exception : Type := InvalidArgument | std_exception.

Inductive outcome (A : Type) : Type :=
| Returned (a : A)
| Thrown (e : exception).
Arguments Returned {A} a.
Arguments Thrown {A} e.

(** A routine over the objects [S] it receives by reference: it either
    returns or throws, and in both cases leaves those objects in some
    state. *)
Definition M (S A : Type) : Type := S -> outcome A * S.

Definition ret {S A} (a : A) : M S A := fun s => (Returned a, s).

Definition throw {S A} (e : exception) : M S A := fun s => (Thrown e, s).

Definition bind {S A B} (c : M S A) (k : A -> M S B) : M S B :=
  fun s =>
    match c s with
    | (Returned a, s') => k a s'
    | (Thrown e, s') => (Thrown e, s')
    end.

Definition get {S} : M S S := fun s => (Returned s, s).

Declare Scope kernel_scope.
Delimit Scope kernel_scope with kernel.
Notation "x <- c ;; k" := (bind c (fun x => k))
  (at level 61, c at next level, right associativity) : kernel_scope.
Notation "c ;;; k" := (bind c (fun _ => k))
  (at level 61, right associativity) : kernel_scope.

(** Modelled from the spec: the macro [blas_error_if] is declared
    outside the files at hand; it signals the recoverable failure
    [InvalidArgument] when its condition holds, before anything is read
    or written. *)
Definition blas_error_if {S} (cond : bool) : M S unit :=
  if cond then throw InvalidArgument else ret tt.

(* ================================================================== *)
(** * Vector and matrix views *)
(* ================================================================== *)

(** What [larf] and the kernels ask of a vector type: [size(v)] and
    [v[i]], with [T = type_t<vector_t>]. *)
Class VectorView (T V : Type) : Type := {
  size : V -> nat;
  elt : V -> nat -> T
}.

(** A pair of indices as a slice specification: [first] and [second]. *)
Record SliceSpec : Type := Slice { first : nat; second : nat }.

(** Sub-range slicing of a vector type, [subvector(v, rows)], with the
    type [R] of its result. *)
Class Sliceable (V R : Type) : Type := {
  subvector : V -> SliceSpec -> R
}.

(** Modelled from the spec: the matrix access policies are declared in
    [lapack/utils.hpp], outside the files at hand; a matrix grants
    [dense] write access exactly when its write policy is [Dense]. *)
Inductive MatrixAccessPolicy : Type := Dense | UpperTriangle | LowerTriangle.

Inductive dense_t : Type := dense.

Definition access_granted (a : dense_t) (p : MatrixAccessPolicy) : bool :=
  match p with
  | Dense => true
  | _ => false
  end.

Definition access_denied (a : dense_t) (p : MatrixAccessPolicy) : bool :=
  negb (access_granted a p).

Section Views.
Context {T : Type} `{Scalar T}.

(** A plain vector: [vsize] elements read by index.  Reading at or past
    [vsize] is undefined in the C++ code; here the index function is
    total and such a read returns whatever it holds there. *)
Record vector : Type := Vector { vsize : nat; vdata : nat -> T }.

#[export] Instance vector_view : VectorView T vector := {|
  size := vsize;
  elt := vdata
|}.

(** The vector whose elements are those of [l], in order. *)
Definition vector_of_list (l : list T) : vector :=
  Vector (length l) (fun i => nth i l zero).

(** The elements [v[0] .. v[size(v)-1]] of a view. *)
Definition to_list {V} `{VectorView T V} (v : V) : list T :=
  map (elt v) (seq 0 (size v)).

(** [class vector_that_starts_with_one]: holds a reference to [v]. *)
Record vector_that_starts_with_one (vector_t : Type) : Type :=
  starts_with_one { v_ : vector_t }.
Arguments starts_with_one {vector_t} v_.
Arguments v_ {vector_t} _.

Section Adapter.
Context {vector_t : Type} `{VectorView T vector_t}.

(** [T operator[](idx_t i) const] *)
Definition starts_with_one_elt
    (v : vector_that_starts_with_one vector_t) (i : nat) : T :=
  if Nat.eqb i 0 then one else elt (v_ v) i.

(** [size( const vector_that_starts_with_one<vector_t>& v )] *)
Definition starts_with_one_size
    (v : vector_that_starts_with_one vector_t) : nat :=
  size (v_ v).

#[export] Instance starts_with_one_view :
  VectorView T (vector_that_starts_with_one vector_t) := {|
  size := starts_with_one_size;
  elt := starts_with_one_elt
|}.

(** [subvector( const vector_that_starts_with_one<vector_t>& v,
    SliceSpec&& rows )].  The function has one deduced ([auto]) return
    type and chooses between its two [return] statements at run time,
    so both must have the same type: that of the first,
    [vector_that_starts_with_one<vector_t>].  Hence the underlying
    [subvector(v.v_, rows)] of the second must itself return an adapted
    view, and the first [return], which builds a
    [vector_that_starts_with_one<vector_t>] from a value of that very
    type, is a copy of it.  For an underlying [subvector] that returns
    a plain view the function does not compile. *)
Definition subvector_starts_with_one
    `{Sliceable vector_t (vector_that_starts_with_one vector_t)}
    (v : vector_that_starts_with_one vector_t) (rows : SliceSpec)
  : vector_that_starts_with_one vector_t :=
  if Nat.eqb (first rows) 0
  then subvector (v_ v) rows
  else subvector (v_ v) rows.
End Adapter.

(** An underlying [subvector] with which the function above compiles:
    it returns the elements [rows.first .. rows.second - 1] of [v],
    wrapped as an adapted view. *)
#[export] Instance vector_sliceable :
  Sliceable vector (vector_that_starts_with_one vector) := {|
  subvector := fun v rows =>
    starts_with_one
      (Vector (second rows - first rows) (fun i => vdata v (first rows + i)))
|}.

(** A matrix: [nrows(C)], [ncols(C)], [C(i,j)] and [write_policy(C)]. *)
Record matrix : Type := Matrix {
  nrows : nat;
  ncols : nat;
  entry : nat -> nat -> T;
  write_policy : MatrixAccessPolicy
}.

(** The matrix whose rows are the lists of [rows], and back. *)
Definition matrix_of_rows (rows : list (list T)) (p : MatrixAccessPolicy)
  : matrix :=
  Matrix (length rows) (length (nth 0 rows []))
         (fun i j => nth j (nth i rows []) zero) p.

Definition to_rows (A : matrix) : list (list T) :=
  map (fun i => map (entry A i) (seq 0 (ncols A))) (seq 0 (nrows A)).

(** Two matrices with the same shape and the same elements. *)
Definition same_matrix (A B : matrix) : Prop :=
  nrows A = nrows B /\ ncols A = ncols B /\
  forall i j, i < nrows A -> j < ncols A -> entry A i j = entry B i j.

(** ** The two Level-2 kernels [larf] calls *)

(** Element [(i,j)] of [op(A)]. *)
Definition op_entry (trans : Op) (A : nat -> nat -> T) (i j : nat) : T :=
  match trans with
  | NoTrans => A i j
  | Trans => A j i
  | ConjTrans => conj (A j i)
  end.

(** The destination policy of every kernel with a [beta]: when
    [beta == 0] the new value is written directly and the old one is
    not read; otherwise [beta] times the old value is added. *)
Definition blend (term beta dest : T) : T :=
  if is_zero beta then term else add term (mul beta dest).

(** Modelled from the spec: [blas::gemv] is not among the files at
    hand.  It computes [y := alpha*op(A)*x + beta*y] for an [m]-by-[n]
    matrix [A]; it leaves [y] alone when [m = 0] or [n = 0], and does
    not read [y] when [beta = 0]. *)
Definition gemv_elements (trans : Op) (m n : nat) (alpha : T)
    (A : nat -> nat -> T) (x : nat -> T) (beta : T) (y : nat -> T)
  : nat -> T :=
  if Nat.eqb m 0 || Nat.eqb n 0 then y
  else
    fun i =>
      if Nat.ltb i (match trans with NoTrans => m | _ => n end)
      then blend
             (mul alpha
                (sum_upto (match trans with NoTrans => n | _ => m end)
                   (fun j => mul (op_entry trans A i j) (x j))))
             beta (y i)
      else y i.

(** [gemv(trans, alpha, A, x, beta, y)] on views, as [larf] calls it. *)
Definition gemv {V} `{VectorView T V}
    (trans : Op) (alpha : T) (A : matrix) (x : V) (beta : T) (y : vector)
  : vector :=
  Vector (vsize y)
    (gemv_elements trans (nrows A) (ncols A) alpha (entry A) (elt x)
       beta (vdata y)).

(** Modelled from the spec: [blas::ger] is not among the files at hand.
    [ger(alpha, x, y, A)] is the rank-1 update
    [A := A + alpha*x*y^H]. *)
Definition ger {V W} `{VectorView T V} `{VectorView T W}
    (alpha : T) (x : V) (y : W) (A : matrix) : matrix :=
  Matrix (nrows A) (ncols A)
    (fun i j =>
       if Nat.ltb i (nrows A) && Nat.ltb j (ncols A)
       then add (entry A i j) (mul alpha (mul (elt x i) (conj (elt y j))))
       else entry A i j)
    (write_policy A).

(** ** [larf] *)

(** The kernel calls a routine makes, in order. *)
Inductive kernel_call : Type :=
| call_gemv (trans : Op) (alpha beta : T)
| call_ger (alpha : T).

(** The objects [larf] receives by non-const reference, [tau], [C] and
    [work] (three distinct objects), and the log of the kernel calls
    made on them. *)
Record larf_refs : Type := Refs {
  tau : T;
  C : matrix;
  work : vector;
  calls : list kernel_call
}.

(** [gemv(trans, alpha, C, x, beta, work)] *)
Definition gemv_C_into_work {V} `{VectorView T V}
    (trans : Op) (alpha : T) (x : V) (beta : T) : M larf_refs unit :=
  fun s =>
    (Returned tt,
     Refs (tau s) (C s) (gemv trans alpha (C s) x beta (work s))
          (calls s ++ [call_gemv trans alpha beta])).

(** [ger(alpha, x, work, C)] *)
Definition ger_x_work_into_C {V} `{VectorView T V}
    (alpha : T) (x : V) : M larf_refs unit :=
  fun s =>
    (Returned tt,
     Refs (tau s) (ger alpha x (work s) (C s)) (work s)
          (calls s ++ [call_ger alpha])).

(** [ger(alpha, work, y, C)] *)
Definition ger_work_y_into_C {V} `{VectorView T V}
    (alpha : T) (y : V) : M larf_refs unit :=
  fun s =>
    (Returned tt,
     Refs (tau s) (ger alpha (work s) y (C s)) (work s)
          (calls s ++ [call_ger alpha])).

Local Open Scope kernel_scope.

(** [larf( side, v, tau, C, work )] *)
Definition larf {vector_t} `{VectorView T vector_t}
    (side : Side) (v : vector_t) : M larf_refs unit :=
  blas_error_if (negb (Side_eqb side Left) && negb (Side_eqb side Right)) ;;;
  s <- get ;;
  blas_error_if (access_denied dense (write_policy (C s))) ;;;
  let v2 := starts_with_one v in
  if Side_eqb side Left then
    gemv_C_into_work ConjTrans one v2 zero ;;;
    s1 <- get ;;
    ger_x_work_into_C (neg (tau s1)) v2
  else
    gemv_C_into_work NoTrans one v2 zero ;;;
    s1 <- get ;;
    ger_work_y_into_C (neg (tau s1)) v2.

(** What the reference [tau] names: an object of its own, the element
    [work[k]], or the element [C(i,j)]. *)
Inductive tau_place : Type :=
| tau_own
| tau_in_work (k : nat)
| tau_in_C (i j : nat).

(** The value read through the reference [tau]. *)
Definition read_tau (p : tau_place) (s : larf_refs) : T :=
  match p with
  | tau_own => tau s
  | tau_in_work k => vdata (work s) k
  | tau_in_C i j => entry (C s) i j
  end.

(** [larf( side, v, tau, C, work )] with [tau] naming [p]: [-tau] is
    evaluated when the argument of [ger] is built, that is after the
    [gemv] has written [work]. *)
Definition larf_at {vector_t} `{VectorView T vector_t}
    (p : tau_place) (side : Side) (v : vector_t) : M larf_refs unit :=
  blas_error_if (negb (Side_eqb side Left) && negb (Side_eqb side Right)) ;;;
  s <- get ;;
  blas_error_if (access_denied dense (write_policy (C s))) ;;;
  let v2 := starts_with_one v in
  if Side_eqb side Left then
    gemv_C_into_work ConjTrans one v2 zero ;;;
    s1 <- get ;;
    ger_x_work_into_C (neg (read_tau p s1)) v2
  else
    gemv_C_into_work NoTrans one v2 zero ;;;
    s1 <- get ;;
    ger_work_y_into_C (neg (read_tau p s1)) v2.

(** [larf] applied twice with the same [side] and [v]. *)
Definition larf_twice {vector_t} `{VectorView T vector_t}
    (side : Side) (v : vector_t) : M larf_refs unit :=
  larf side v ;;; larf side v.

(** ** Notions the statements about [larf] use *)

(** [v^H v] over the first [m] elements of [x]. *)
Definition norm2 (m : nat) (x : nat -> T) : T :=
  sum_upto m (fun i => mul (conj (x i)) (x i)).

(** [v^H v] for the vector [larf] works with, the adapted view of [v]. *)
Definition vHv {vector_t} `{VectorView T vector_t} (v : vector_t) : T :=
  norm2 (size (starts_with_one v)) (elt (starts_with_one v)).

(** Element [j] of [C^H * x] and element [i] of [C * x]. *)
Definition CHx (m : nat) (c : nat -> nat -> T) (x : nat -> T) (j : nat) : T :=
  sum_upto m (fun i => mul (conj (c i j)) (x i)).

Definition Cx (n : nat) (c : nat -> nat -> T) (x : nat -> T) (i : nat) : T :=
  sum_upto n (fun j => mul (c i j) (x j)).

(** [C - t*x*(C^H x)^H] and [C - t*(C x)*x^H], element by element. *)
Definition reflect_left (m : nat) (t : T) (x : nat -> T)
    (c : nat -> nat -> T) (i j : nat) : T :=
  sub (c i j) (mul t (mul (x i) (conj (CHx m c x j)))).

Definition reflect_right (n : nat) (t : T) (x : nat -> T)
    (c : nat -> nat -> T) (i j : nat) : T :=
  sub (c i j) (mul t (mul (Cx n c x i) (conj (x j)))).

(** The work vector after the [gemv] of [larf]. *)
Definition work_after (trans : Op) {vector_t} `{VectorView T vector_t}
    (v : vector_t) (s : larf_refs)
  : vector :=
  gemv trans one (C s) (starts_with_one v) zero (work s).

(** The product [larf] forms with the adapted [v]: [C^H v] for
    [Left], one element per column of [C], and [C v] otherwise, one
    element per row. *)
Definition product_length (side : Side) (A : matrix) : nat :=
  match side with
  | Left => ncols A
  | _ => nrows A
  end.

Definition reflected_length (side : Side) (A : matrix) : nat :=
  match side with
  | Left => nrows A
  | _ => ncols A
  end.

Definition product_with_v {vector_t} `{VectorView T vector_t}
    (side : Side) (v : vector_t) (A : matrix) (k : nat) : T :=
  match side with
  | Left => CHx (nrows A) (entry A) (elt (starts_with_one v)) k
  | _ => Cx (ncols A) (entry A) (elt (starts_with_one v)) k
  end.

(** ** [lassq] *)

(** [lassq( n, X, incx, scale, sumsq )]: the state is the pair of the
    two references [scale] and [sumsq]. *)
Definition lassq (n : nat) (X : list T) (incx : nat) : M (T * T) unit :=
  throw std_exception.

End Views.

Arguments vector T : clear implicits.
Arguments matrix T : clear implicits.
Arguments larf_refs T : clear implicits.
Arguments kernel_call T : clear implicits.
Arguments starts_with_one {vector_t} v_.
Arguments v_ {vector_t} _.

(* ================================================================== *)
(** * The BLAS kernels with a [beta], as the corner-case tests call them *)
(* ================================================================== *)

(** The kernels [gemv], [hemv], [symv], [gemm], [symm], [hemm], [syrk],
    [herk], [syr2k] and [her2k] are not among the files at hand; only
    their corner-case tests are.  They are modelled from the spec.  The argument
    lists below are those of the calls in [test_corner_cases.cpp],
    with each operand (buffer, layout and leading dimension, or buffer
    and increment) presented by its logical elements.  The results
    follow the spec: [y := alpha*op(A)*x + beta*y] and
    [C := alpha*op(A)*op(B) + beta*C] and their symmetric, Hermitian and
    rank-k analogs; a zero output dimension leaves the destination
    alone; [beta = 0] writes without reading the destination; only the
    [uplo] half of a symmetric or Hermitian matrix is referenced; the
    imaginary part of a Hermitian diagonal is neither read nor left
    nonzero; an enumeration value outside the accepted set signals
    [InvalidArgument]. *)
Section Kernels.
Context {T : Type} `{Scalar T}.

(** [(i,j)] lies in the [uplo] half, diagonal included. *)
Definition in_uplo (uplo : Uplo) (i j : nat) : bool :=
  match uplo with
  | Upper => Nat.leb i j
  | Lower => Nat.leb j i
  end.

(** Modelled from the spec: the symmetric kernels are not among the
    files at hand.  Element [(i,j)] of the symmetric matrix stored in
    the [uplo] half of [A]; the other half is not referenced. *)
Definition sym_entry (uplo : Uplo) (A : nat -> nat -> T) (i j : nat) : T :=
  if in_uplo uplo i j then A i j else A j i.

(** Modelled from the spec: the Hermitian kernels are not among the
    files at hand.  Element [(i,j)] of the Hermitian matrix stored in
    the [uplo] half of [A]; the other half and the imaginary part of
    the diagonal are not read. *)
Definition herm_entry (uplo : Uplo) (A : nat -> nat -> T) (i j : nat) : T :=
  if Nat.eqb i j then real (A i i)
  else if in_uplo uplo i j then A i j
  else conj (A j i).

(** ** Level 2 *)

(** The calls of the tests: [gemv( layout, trans, m, n, alpha, A, lda,
    x, incx, beta, y, incy )] and [hemv] and [symv]
    [( layout, uplo, n, alpha, A, lda, x, incx, beta, y, incy )]. *)
Inductive level2_call : Type :=
| gemv_call (trans : Op) (m n : nat) (alpha : T)
            (A : nat -> nat -> T) (x : nat -> T) (beta : T)
| hemv_call (uplo : Uplo) (n : nat) (alpha : T)
            (A : nat -> nat -> T) (x : nat -> T) (beta : T)
| symv_call (uplo : Uplo) (n : nat) (alpha : T)
            (A : nat -> nat -> T) (x : nat -> T) (beta : T).

Definition beta2 (c : level2_call) : T :=
  match c with
  | gemv_call _ _ _ _ _ _ beta => beta
  | hemv_call _ _ _ _ _ beta => beta
  | symv_call _ _ _ _ _ beta => beta
  end.

(** Modelled from the spec: the Level-2 kernels are not among the
    files at hand.  The elements of [y] the call writes: none when a
    dimension is zero. *)
Definition written2 (c : level2_call) (i : nat) : bool :=
  match c with
  | gemv_call trans m n _ _ _ _ =>
      negb (Nat.eqb m 0 || Nat.eqb n 0)
      && Nat.ltb i (match trans with NoTrans => m | _ => n end)
  | hemv_call _ n _ _ _ _ => Nat.ltb i n
  | symv_call _ n _ _ _ _ => Nat.ltb i n
  end.

(** Modelled from the spec: [hemv] and [symv] are not among the files
    at hand.  [y := alpha*A*x + beta*y] for the [n]-by-[n] matrix
    whose elements are [a]. *)
Definition square_mv (n : nat) (alpha : T) (a : nat -> nat -> T)
    (x : nat -> T) (beta : T) (y : nat -> T) : nat -> T :=
  fun i =>
    if Nat.ltb i n
    then blend (mul alpha (sum_upto n (fun j => mul (a i j) (x j))))
               beta (y i)
    else y i.

(** Modelled from the spec: the Level-2 kernels are not among the
    files at hand.  The call on the destination [y]. *)
Definition run2 (c : level2_call) (y : nat -> T) : outcome (nat -> T) :=
  match c with
  | gemv_call trans m n alpha A x beta =>
      Returned (gemv_elements trans m n alpha A x beta y)
  | hemv_call uplo n alpha A x beta =>
      Returned (square_mv n alpha (herm_entry uplo A) x beta y)
  | symv_call uplo n alpha A x beta =>
      Returned (square_mv n alpha (sym_entry uplo A) x beta y)
  end.

(** ** Level 3 *)

(** The calls of the tests: [gemm( layout, transA, transB, m, n, k,
    alpha, A, lda, B, ldb, beta, C, ldc )], [symm] and [hemm]
    [( layout, side, uplo, m, n, alpha, A, lda, B, ldb, beta, C, ldc )],
    [syrk] and [herk]
    [( layout, uplo, trans, n, k, alpha, A, lda, beta, C, ldc )], and
    [syr2k] and [her2k]
    [( layout, uplo, trans, n, k, alpha, A, lda, B, ldb, beta, C, ldc )]. *)
Inductive level3_call : Type :=
| gemm_call (transA transB : Op) (m n k : nat) (alpha : T)
            (A B : nat -> nat -> T) (beta : T)
| symm_call (side : Side) (uplo : Uplo) (m n : nat) (alpha : T)
            (A B : nat -> nat -> T) (beta : T)
| hemm_call (side : Side) (uplo : Uplo) (m n : nat) (alpha : T)
            (A B : nat -> nat -> T) (beta : T)
| syrk_call (uplo : Uplo) (trans : Op) (n k : nat) (alpha : T)
            (A : nat -> nat -> T) (beta : T)
| herk_call (uplo : Uplo) (trans : Op) (n k : nat) (alpha : T)
            (A : nat -> nat -> T) (beta : T)
| syr2k_call (uplo : Uplo) (trans : Op) (n k : nat) (alpha : T)
             (A B : nat -> nat -> T) (beta : T)
| her2k_call (uplo : Uplo) (trans : Op) (n k : nat) (alpha : T)
             (A B : nat -> nat -> T) (beta : T).

Definition beta3 (c : level3_call) : T :=
  match c with
  | gemm_call _ _ _ _ _ _ _ _ beta => beta
  | symm_call _ _ _ _ _ _ _ beta => beta
  | hemm_call _ _ _ _ _ _ _ beta => beta
  | syrk_call _ _ _ _ _ _ beta => beta
  | herk_call _ _ _ _ _ _ beta => beta
  | syr2k_call _ _ _ _ _ _ _ beta => beta
  | her2k_call _ _ _ _ _ _ _ beta => beta
  end.

(** The argument [alpha] of the call. *)
Definition alpha3 (c : level3_call) : T :=
  match c with
  | gemm_call _ _ _ _ _ alpha _ _ _ => alpha
  | symm_call _ _ _ _ alpha _ _ _ => alpha
  | hemm_call _ _ _ _ alpha _ _ _ => alpha
  | syrk_call _ _ _ _ alpha _ _ => alpha
  | herk_call _ _ _ _ alpha _ _ => alpha
  | syr2k_call _ _ _ _ alpha _ _ _ => alpha
  | her2k_call _ _ _ _ alpha _ _ _ => alpha
  end.

(** The argument [k] of the call, for the kernels that take one. *)
Definition reduction_k (c : level3_call) : option nat :=
  match c with
  | gemm_call _ _ _ _ k _ _ _ _ => Some k
  | symm_call _ _ _ _ _ _ _ _ => None
  | hemm_call _ _ _ _ _ _ _ _ => None
  | syrk_call _ _ _ k _ _ _ => Some k
  | herk_call _ _ _ k _ _ _ => Some k
  | syr2k_call _ _ _ k _ _ _ _ => Some k
  | her2k_call _ _ _ k _ _ _ _ => Some k
  end.

(** The shape of [C]: [m]-by-[n], or [n]-by-[n] for the rank-k
    updates. *)
Definition rows3 (c : level3_call) : nat :=
  match c with
  | gemm_call _ _ m _ _ _ _ _ _ => m
  | symm_call _ _ m _ _ _ _ _ => m
  | hemm_call _ _ m _ _ _ _ _ => m
  | syrk_call _ _ n _ _ _ _ => n
  | herk_call _ _ n _ _ _ _ => n
  | syr2k_call _ _ n _ _ _ _ _ => n
  | her2k_call _ _ n _ _ _ _ _ => n
  end.

Definition cols3 (c : level3_call) : nat :=
  match c with
  | gemm_call _ _ _ n _ _ _ _ _ => n
  | symm_call _ _ _ n _ _ _ _ => n
  | hemm_call _ _ _ n _ _ _ _ => n
  | syrk_call _ _ n _ _ _ _ => n
  | herk_call _ _ n _ _ _ _ => n
  | syr2k_call _ _ n _ _ _ _ _ => n
  | her2k_call _ _ n _ _ _ _ _ => n
  end.

(** Modelled from the spec: the Level-3 kernels are not among the
    files at hand.  The elements of [C] the call references: all of
    them for [gemm], [symm] and [hemm], the [uplo] half for the rank-k
    updates, whose [C] carries the structure tag. *)
Definition referenced3 (c : level3_call) (i j : nat) : bool :=
  Nat.ltb i (rows3 c) && Nat.ltb j (cols3 c) &&
  match c with
  | gemm_call _ _ _ _ _ _ _ _ _ => true
  | symm_call _ _ _ _ _ _ _ _ => true
  | hemm_call _ _ _ _ _ _ _ _ => true
  | syrk_call uplo _ _ _ _ _ _ => in_uplo uplo i j
  | herk_call uplo _ _ _ _ _ _ => in_uplo uplo i j
  | syr2k_call uplo _ _ _ _ _ _ _ => in_uplo uplo i j
  | her2k_call uplo _ _ _ _ _ _ _ => in_uplo uplo i j
  end.


(** Modelled from the spec: the Level-3 kernels are not among the
    files at hand.  The enumeration checks, as the tests expect them:
    [side] is [Left] or [Right]; [trans] is not [ConjTrans] for [syrk]
    and [syr2k], and not [Trans] for [herk] and [her2k]. *)
Definition valid3 (c : level3_call) : bool :=
  match c with
  | gemm_call _ _ _ _ _ _ _ _ _ => true
  | symm_call side _ _ _ _ _ _ _ =>
      Side_eqb side Left || Side_eqb side Right
  | hemm_call side _ _ _ _ _ _ _ =>
      Side_eqb side Left || Side_eqb side Right
  | syrk_call _ trans _ _ _ _ _ =>
      match trans with ConjTrans => false | _ => true end
  | herk_call _ trans _ _ _ _ _ =>
      match trans with Trans => false | _ => true end
  | syr2k_call _ trans _ _ _ _ _ _ =>
      match trans with ConjTrans => false | _ => true end
  | her2k_call _ trans _ _ _ _ _ _ =>
      match trans with Trans => false | _ => true end
  end.

(** Modelled from the spec: the Level-3 kernels are not among the
    files at hand.  The term the call adds to [beta*C] at [(i,j)]:
    [alpha*op(A)*op(B)] for [gemm], [alpha*A*B] or [alpha*B*A] for
    [symm] and [hemm], [alpha*A*A^T] and [alpha*A*A^H] for [syrk] and
    [herk], [alpha*A*B^T + alpha*B*A^T] and
    [alpha*A*B^H + conj(alpha)*B*A^H] for [syr2k] and [her2k]. *)
Definition product3 (c : level3_call) (i j : nat) : T :=
  match c with
  | gemm_call tA tB _ _ k alpha A B _ =>
      mul alpha
        (sum_upto k (fun l => mul (op_entry tA A i l) (op_entry tB B l j)))
  | symm_call side uplo m n alpha A B _ =>
      match side with
      | Left =>
          mul alpha (sum_upto m (fun l => mul (sym_entry uplo A i l) (B l j)))
      | _ =>
          mul alpha (sum_upto n (fun l => mul (B i l) (sym_entry uplo A l j)))
      end
  | hemm_call side uplo m n alpha A B _ =>
      match side with
      | Left =>
          mul alpha
            (sum_upto m (fun l => mul (herm_entry uplo A i l) (B l j)))
      | _ =>
          mul alpha
            (sum_upto n (fun l => mul (B i l) (herm_entry uplo A l j)))
      end
  | syrk_call _ trans _ k alpha A _ =>
      match trans with
      | NoTrans => mul alpha (sum_upto k (fun l => mul (A i l) (A j l)))
      | _ => mul alpha (sum_upto k (fun l => mul (A l i) (A l j)))
      end
  | herk_call _ trans _ k alpha A _ =>
      match trans with
      | NoTrans =>
          mul alpha (sum_upto k (fun l => mul (A i l) (conj (A j l))))
      | _ => mul alpha (sum_upto k (fun l => mul (conj (A l i)) (A l j)))
      end
  | syr2k_call _ trans _ k alpha A B _ =>
      match trans with
      | NoTrans =>
          mul alpha
            (sum_upto k
               (fun l => add (mul (A i l) (B j l)) (mul (B i l) (A j l))))
      | _ =>
          mul alpha
            (sum_upto k
               (fun l => add (mul (A l i) (B l j)) (mul (B l i) (A l j))))
      end
  | her2k_call _ trans _ k alpha A B _ =>
      match trans with
      | NoTrans =>
          add
            (mul alpha
               (sum_upto k (fun l => mul (A i l) (conj (B j l)))))
            (mul (conj alpha)
               (sum_upto k (fun l => mul (B i l) (conj (A j l)))))
      | _ =>
          add
            (mul alpha
               (sum_upto k (fun l => mul (conj (A l i)) (B l j))))
            (mul (conj alpha)
               (sum_upto k (fun l => mul (conj (B l i)) (A l j))))
      end
  end.

(** The result is a Hermitian matrix: [herk] and [her2k]. *)
Definition hermitian_result (c : level3_call) : bool :=
  match c with
  | herk_call _ _ _ _ _ _ _ => true
  | her2k_call _ _ _ _ _ _ _ _ => true
  | _ => false
  end.

(** Modelled from the spec: the Level-3 kernels are not among the
    files at hand.  The call adds no product when [alpha = 0] or when
    its reduction dimension [k] is [0]: the result is then [beta*C]
    exactly, whatever [alpha], [A] and [B] hold. *)
Definition no_product3 (c : level3_call) : bool :=
  is_zero (alpha3 c) ||
  match reduction_k c with
  | Some 0 => true
  | _ => false
  end.

(** Modelled from the spec: the Level-3 kernels are not among the
    files at hand.  The element [(i,j)] of [C] as the call reads it:
    the stored value, or its real part on the diagonal of a Hermitian
    [C], whose imaginary part is not read. *)
Definition element3 (c : level3_call) (C : nat -> nat -> T) (i j : nat) : T :=
  if hermitian_result c && Nat.eqb i j then real (C i j) else C i j.

(** Modelled from the spec: [beta*x] as every kernel forms it: when
    [beta = 0] the value [0] is written and [x] is not read. *)
Definition scaled (beta x : T) : T :=
  if is_zero beta then zero else mul beta x.

(** Modelled from the spec: the Level-3 kernels are not among the
    files at hand.  The new value of a referenced element [(i,j)] of
    [C]: [beta*C] when the call adds no product, and otherwise the
    product plus [beta*C]; on the diagonal of a Hermitian result the
    imaginary part is not read and is set to zero. *)
Definition update3 (c : level3_call) (C : nat -> nat -> T) (i j : nat) : T :=
  if no_product3 c then scaled (beta3 c) (element3 c C i j)
  else if hermitian_result c && Nat.eqb i j
  then real (blend (product3 c i j) (beta3 c) (real (C i j)))
  else blend (product3 c i j) (beta3 c) (C i j).

(** Modelled from the spec: the Level-3 kernels are not among the
    files at hand.  The call on the destination [C]: the arguments are
    checked first, then every referenced element is updated. *)
Definition run3 (c : level3_call) (C : nat -> nat -> T)
  : outcome (nat -> nat -> T) :=
  if valid3 c
  then Returned
         (fun i j => if referenced3 c i j then update3 c C i j else C i j)
  else Thrown InvalidArgument.

(** The first [n] elements of a buffer, and an [m]-by-[n] buffer
    listed row by row. *)
Definition elements2 (n : nat) (y : nat -> T) : list T :=
  map y (seq 0 n).

Definition elements3 (m n : nat) (C : nat -> nat -> T) : list (list T) :=
  map (fun i => map (C i) (seq 0 n)) (seq 0 m).

End Kernels.

Arguments level2_call T : clear implicits.
Arguments level3_call T : clear implicits.

(* ================================================================== *)
(** * Concrete inputs for the examples *)
(* ================================================================== *)

(** The 2-by-2 identity, over the integers and over the Gaussian
    integers. *)
Definition identity_Z : matrix Z :=
  matrix_of_rows [[1; 0]; [0; 1]]%Z Dense.

Definition identity_gauss : matrix gauss :=
  matrix_of_rows [[Gauss 1 0; Gauss 0 0]; [Gauss 0 0; Gauss 1 0]] Dense.

(** The same identity behind a write policy that is not dense. *)
Definition identity_Z_upper : matrix Z :=
  matrix_of_rows [[1; 0]; [0; 1]]%Z UpperTriangle.

(** A matrix [A] with [A^H [1; 3] = 0]. *)
Definition annihilated_Z : matrix Z :=
  matrix_of_rows [[3; 0]; [-1; 0]]%Z Dense.

(** Caller vectors: the adapted views read [[1; 3]] and [[1; i]]. *)
Definition v_5_3 : vector Z := vector_of_list [5; 3]%Z.
Definition v_0_i : vector gauss := vector_of_list [Gauss 0 0; Gauss 0 1].

(** [tau], [C] and [work] before a call, with no kernel called yet. *)
Definition refs_Z (t : Z) (A : matrix Z) : larf_refs Z :=
  Refs t A (vector_of_list [7; 7]%Z) [].

Definition refs_gauss (t : gauss) (A : matrix gauss) : larf_refs gauss :=
  Refs t A (vector_of_list [Gauss 7 0; Gauss 7 0]) [].

(** Operands and destinations filled with [1], as in the tests. *)
Definition ones2 {T} `{Scalar T} : nat -> nat -> T := fun _ _ => one.
Definition ones1 {T} `{Scalar T} : nat -> T := fun _ => one.

(** [gemm( layout, NoTrans, NoTrans, 2, 2, 0, 1, A, lda, B, ldb, 2, C, ldc )]. *)
Definition gemm_2x2_k0 : level3_call Z :=
  gemm_call NoTrans NoTrans 2 2 0 1%Z ones2 ones2 2%Z.

(** [herk( layout, Upper, NoTrans, 2, 0, 1, A, lda, 2, C, ldc )] on
    complex scalars. *)
Definition herk_2x2_k0 : level3_call gauss :=
  herk_call Upper NoTrans 2 0 (Gauss 1 0) ones2 (Gauss 2 0).

(** [gemv( layout, NoTrans, 2, 2, 1, A, 2, x, incx, 0, y, incy )] and
    [hemv( layout, Upper, 2, 1, A, 2, x, incx, 0, y, incy )], on scalars
    with a [NaN]. *)
Definition gemv_2x2_beta0 : level2_call nanZ :=
  gemv_call NoTrans 2 2 (Num 1) ones2 ones1 (Num 0).

Definition hemv_2x2_beta0 : level2_call nanZ :=
  hemv_call Upper 2 (Num 1) ones2 ones1 (Num 0).

(** A destination filled with [NaN]. *)
Definition nans1 : nat -> nanZ := fun _ => NaN.
Definition nans2 : nat -> nat -> nanZ := fun _ _ => NaN.

(** [gemm] with [beta = 0] on scalars with a [NaN]. *)
Definition gemm_2x2_beta0 : level3_call nanZ :=
  gemm_call NoTrans NoTrans 2 2 2 (Num 1) ones2 ones2 (Num 0).

(* ================================================================== *)
(** * Notions for the further properties of [larf] *)
(* ================================================================== *)

Section Further.
Context {T : Type} `{Scalar T}.

(** The caller stores another value in [tau] between two calls. *)
Definition with_tau (t : T) (s : larf_refs T) : larf_refs T :=
  Refs t (C s) (work s) (calls s).

(** The caller passes another workspace, or another matrix. *)
Definition with_work (w : vector T) (s : larf_refs T) : larf_refs T :=
  Refs (tau s) (C s) w (calls s).

Definition with_C (A : matrix T) (s : larf_refs T) : larf_refs T :=
  Refs (tau s) A (work s) (calls s).

(** The conjugate transpose [A^H], with the write policy of [A]. *)
Definition conj_transpose (A : matrix T) : matrix T :=
  Matrix (ncols A) (nrows A) (fun i j => conj (entry A j i))
         (write_policy A).

(** The dense matrix with one column, the elements of the view [x]. *)
Definition column_matrix {V} `{VectorView T V} (x : V) : matrix T :=
  Matrix (size x) 1 (fun i _ => elt x i) Dense.

(** The element-wise sum [A + B], with the shape and the write policy
    of [A]. *)
Definition matrix_add (A B : matrix T) : matrix T :=
  Matrix (nrows A) (ncols A)
         (fun i j => add (entry A i j) (entry B i j)) (write_policy A).

End Further.

(** More concrete inputs: a 2-by-3 integer matrix, a 2-by-2 complex
    matrix, and caller vectors of length 3 and 2. *)
Definition wide_Z : matrix Z :=
  matrix_of_rows [[1; 2; 3]; [4; 5; 6]]%Z Dense.

Definition square_gauss : matrix gauss :=
  matrix_of_rows [[Gauss 1 2; Gauss 0 1]; [Gauss 3 0; Gauss 1 (-1)]] Dense.

Definition v_9_3 : vector Z := vector_of_list [9; 3]%Z.
Definition v_4_2_5 : vector Z := vector_of_list [4; 2; 5]%Z.

(** A matrix with two rows and no column. *)
Definition no_columns_Z : matrix Z := Matrix 2 0 (fun _ _ => 8%Z) Dense.

(** Inputs over the scalars with a [NaN]: the 2-by-2 identity, a caller
    vector, and a workspace that holds [NaN] everywhere. *)
Definition identity_nan : matrix nanZ :=
  matrix_of_rows [[Num 1; Num 0]; [Num 0; Num 1]] Dense.

Definition v_nan_5_3 : vector nanZ := vector_of_list [Num 5; Num 3].

Definition nan_work : vector nanZ := Vector 2 (fun _ => NaN).

Definition refs_nan (t : nanZ) (A : matrix nanZ) : larf_refs nanZ :=
  Refs t A (vector_of_list [Num 7; Num 7]) [].


(** [gemm] with [k = 0], [beta = 2] and a [NaN] for [alpha] and for
    every element of [A] and [B]. *)
Definition gemm_2x2_k0_nan : level3_call nanZ :=
  gemm_call NoTrans NoTrans 2 2 0 NaN nans2 nans2 (Num 2).

(** [tau], a 2-by-3 [C] and a workspace of length 3, as [side = Left]
    needs it. *)
Definition refs_Z_wide (t : Z) (A : matrix Z) : larf_refs Z :=
  Refs t A (vector_of_list [7; 7; 7]%Z) [].

(** [wide_Z] with its middle column replaced. *)
Definition wide_Z_other_column : matrix Z :=
  matrix_of_rows [[1; 20; 3]; [4; 50; 6]]%Z Dense.

(** A second 2-by-3 integer matrix. *)
Definition wide_Z_second : matrix Z :=
  matrix_of_rows [[0; 1; -1]; [2; 0; 7]]%Z Dense.

(* ================================================================== *)
(** * The scalar instances satisfy their laws *)
(* ================================================================== *)

#[export] Instance Z_zero_test : ZeroTest Z.
Proof.
  constructor. intro x. simpl. apply Z.eqb_eq.
Qed.

Lemma Z_ring_theory : ring_theory (@zero Z _) one add mul sub neg (@eq Z).
Proof.
  constructor; intros; unfold sub;
    cbv [zero one add mul neg Z_scalar]; ring.
Qed.

#[export] Instance Z_laws : ScalarLaws Z.
Proof.
  constructor.
  - exact Z_zero_test.
  - exact Z_ring_theory.
  - reflexivity.
  - reflexivity.
  - reflexivity.
  - reflexivity.
  - reflexivity.
  - reflexivity.
Qed.

#[export] Instance Z_domain : ScalarDomain Z.
Proof.
  constructor; [exact Z_laws|].
  simpl. intros x y Hxy. apply Z.mul_eq_0. exact Hxy.
Qed.

Lemma gauss_eq (a b c d : Z) : a = c -> b = d -> Gauss a b = Gauss c d.
Proof. intros -> ->. reflexivity. Qed.

#[export] Instance gauss_zero_test : ZeroTest gauss.
Proof.
  constructor. intros [a b]. simpl. unfold gauss_is_zero. simpl.
  rewrite andb_true_iff, !Z.eqb_eq. split.
  - intros [-> ->]. reflexivity.
  - intro E. inversion E. split; reflexivity.
Qed.

Ltac gauss_ring :=
  intros;
  repeat match goal with x : gauss |- _ => destruct x end;
  unfold sub;
  cbv [zero one add mul neg conj real gauss_scalar
       gauss_add gauss_mul gauss_neg gauss_conj gauss_real re im];
  apply gauss_eq; ring.

Lemma gauss_ring_theory :
  ring_theory (@zero gauss _) one add mul sub neg (@eq gauss).
Proof.
  constructor; gauss_ring.
Qed.

#[export] Instance gauss_laws : ScalarLaws gauss.
Proof.
  constructor.
  - exact gauss_zero_test.
  - exact gauss_ring_theory.
  - gauss_ring.
  - gauss_ring.
  - reflexivity.
  - gauss_ring.
  - gauss_ring.
  - gauss_ring.
Qed.

#[export] Instance gauss_domain : ScalarDomain gauss.
Proof.
  constructor; [exact gauss_laws|].
  intros [a b] [c d]. simpl. unfold gauss_mul. simpl. intro E.
  inversion E as [[E1 E2]].
  assert (N : ((a * a + b * b) * (c * c + d * d) = 0)%Z) by nia.
  apply Z.mul_eq_0 in N. destruct N as [N | N].
  - left. apply gauss_eq; nia.
  - right. apply gauss_eq; nia.
Qed.

#[export] Instance nanZ_zero_test : ZeroTest nanZ.
Proof.
  constructor. intros [a|]; simpl.
  - rewrite Z.eqb_eq. split; [intros ->; reflexivity | intro E; inversion E; reflexivity].
  - split; discriminate.
Qed.

(* ================================================================== *)
(** * What [larf] does, step by step *)
(* ================================================================== *)

Section LarfRuns.
Context {T : Type} `{Scalar T}.
Context {vector_t : Type} `{VectorView T vector_t}.

Lemma Side_eqb_eq (a b : Side) : Side_eqb a b = true <-> a = b.
Proof.
  destruct a, b; simpl; split; intro E;
    try reflexivity; try discriminate.
  - apply Z.eqb_eq in E. subst. reflexivity.
  - inversion E. apply Z.eqb_refl.
Qed.

Lemma Side_eqb_neq (a b : Side) : Side_eqb a b = false <-> a <> b.
Proof.
  destruct (Side_eqb a b) eqn:E.
  - split; [discriminate|].
    intro N. exfalso. apply N. apply Side_eqb_eq. exact E.
  - split; [|reflexivity].
    intros _ F. apply Side_eqb_eq in F. congruence.
Qed.

(** A [side] outside the enumeration throws at the first check. *)
Lemma larf_bad_side (side : Side) (v : vector_t) (s : larf_refs T) :
  side <> Left -> side <> Right ->
  larf side v s = (Thrown InvalidArgument, s).
Proof.
  intros HL HR. apply Side_eqb_neq in HL. apply Side_eqb_neq in HR.
  unfold larf, bind, blas_error_if. rewrite HL, HR. reflexivity.
Qed.

(** Without dense write access to [C] the second check throws. *)
Lemma larf_access_denied (side : Side) (v : vector_t) (s : larf_refs T) :
  access_denied dense (write_policy (C s)) = true ->
  larf side v s = (Thrown InvalidArgument, s).
Proof.
  intro HD. unfold larf, bind, blas_error_if.
  destruct (negb (Side_eqb side Left) && negb (Side_eqb side Right));
    [reflexivity|].
  unfold ret, get, throw. rewrite HD. reflexivity.
Qed.

Lemma larf_Left_run (v : vector_t) (s : larf_refs T) :
  write_policy (C s) = Dense ->
  larf Left v s =
  (Returned tt,
   Refs (tau s)
        (ger (neg (tau s)) (starts_with_one v) (work_after ConjTrans v s)
             (C s))
        (work_after ConjTrans v s)
        ((calls s ++ [call_gemv ConjTrans one zero])
           ++ [call_ger (neg (tau s))])).
Proof.
  intro HD. unfold larf, bind, blas_error_if. simpl.
  unfold ret, get. rewrite HD. reflexivity.
Qed.

Lemma larf_Right_run (v : vector_t) (s : larf_refs T) :
  write_policy (C s) = Dense ->
  larf Right v s =
  (Returned tt,
   Refs (tau s)
        (ger (neg (tau s)) (work_after NoTrans v s) (starts_with_one v)
             (C s))
        (work_after NoTrans v s)
        ((calls s ++ [call_gemv NoTrans one zero])
           ++ [call_ger (neg (tau s))])).
Proof.
  intro HD. unfold larf, bind, blas_error_if. simpl.
  unfold ret, get. rewrite HD. reflexivity.
Qed.

(** [larf] either throws, with nothing changed, or makes its two
    calls. *)
Lemma larf_cases (side : Side) (v : vector_t) (s : larf_refs T) :
  larf side v s = (Thrown InvalidArgument, s) \/
  exists trans C',
    larf side v s =
    (Returned tt,
     Refs (tau s) C' (work_after trans v s)
          ((calls s ++ [call_gemv trans one zero])
             ++ [call_ger (neg (tau s))])).
Proof.
  destruct (access_denied dense (write_policy (C s))) eqn:HD.
  - left. apply larf_access_denied. exact HD.
  - assert (HP : write_policy (C s) = Dense).
    { destruct (write_policy (C s)); [reflexivity | discriminate ..]. }
    destruct side as [ | | raw].
    + right. eexists _, _. apply larf_Left_run. exact HP.
    + right. eexists _, _. apply larf_Right_run. exact HP.
    + left. apply larf_bad_side; discriminate.
Qed.

End LarfRuns.

(* ================================================================== *)
(** * Exact scalars: sums, conjugation and the reflector algebra *)
(* ================================================================== *)

Section ExactScalars.
Context {T : Type} {S : Scalar T} {L : ScalarLaws T}.

Add Ring scalar_ring_db : (@scalar_ring T S L).

Lemma is_zero_zero : is_zero (zero : T) = true.
Proof. apply is_zero_spec. reflexivity. Qed.

Lemma add_cancel_l (a x y : T) : add a x = add a y -> x = y.
Proof.
  intro E.
  assert (E' : add (neg a) (add a x) = add (neg a) (add a y))
    by (rewrite E; reflexivity).
  transitivity (add (neg a) (add a x)); [ring|].
  rewrite E'. ring.
Qed.

Lemma conj_zero : conj (zero : T) = zero.
Proof.
  apply (add_cancel_l (conj zero)).
  rewrite <- conj_add.
  replace (add zero zero) with (zero : T) by ring. ring.
Qed.

Lemma conj_neg (x : T) : conj (neg x) = neg (conj x).
Proof.
  apply (add_cancel_l (conj x)).
  rewrite <- conj_add.
  replace (add x (neg x)) with (zero : T) by ring.
  rewrite conj_zero. ring.
Qed.

Lemma conj_sub (x y : T) : conj (sub x y) = sub (conj x) (conj y).
Proof. unfold sub. rewrite conj_add, conj_neg. reflexivity. Qed.

Lemma add_neg_mul (c t x : T) :
  add c (mul (neg t) x) = sub c (mul t x).
Proof. unfold sub. ring. Qed.

Lemma real_zero : real (zero : T) = zero.
Proof.
  apply (add_cancel_l (real zero)).
  rewrite <- real_add.
  replace (add zero zero) with (zero : T) by ring. ring.
Qed.

(** With exact scalars the direct write of [beta = 0] agrees with the
    general formula. *)
Lemma blend_exact (term beta dest : T) :
  blend term beta dest = add term (mul beta dest).
Proof.
  unfold blend. destruct (is_zero beta) eqn:E; [|reflexivity].
  apply is_zero_spec in E. subst beta. ring.
Qed.

Lemma sum_upto_ext (n : nat) (f g : nat -> T) :
  (forall i, i < n -> f i = g i) -> sum_upto n f = sum_upto n g.
Proof.
  induction n as [|n IH]; intro E; simpl; [reflexivity|].
  rewrite IH by (intros i Hi; apply E; lia).
  rewrite (E n) by lia. reflexivity.
Qed.

Lemma sum_upto_sub_mul (n : nat) (a : T) (f g : nat -> T) :
  sum_upto n (fun i => sub (f i) (mul a (g i))) =
  sub (sum_upto n f) (mul a (sum_upto n g)).
Proof.
  induction n as [|n IH]; simpl; [ring|]. rewrite IH. ring.
Qed.

Lemma conj_sum_upto (n : nat) (f : nat -> T) :
  conj (sum_upto n f) = sum_upto n (fun i => conj (f i)).
Proof.
  induction n as [|n IH]; simpl; [apply conj_zero|].
  rewrite conj_add, IH. reflexivity.
Qed.

Lemma conj_norm2 (m : nat) (x : nat -> T) : conj (norm2 m x) = norm2 m x.
Proof.
  unfold norm2. rewrite conj_sum_upto. apply sum_upto_ext.
  intros i _. rewrite conj_mul, conj_conj. ring.
Qed.

Lemma CHx_reflect_left (m : nat) (t : T) (x : nat -> T)
    (c c1 : nat -> nat -> T) (j : nat) :
  (forall i, i < m -> c1 i j = reflect_left m t x c i j) ->
  CHx m c1 x j =
  sub (CHx m c x j) (mul (mul (conj t) (CHx m c x j)) (norm2 m x)).
Proof.
  intro E. unfold CHx, norm2.
  rewrite <- sum_upto_sub_mul. apply sum_upto_ext.
  intros i Hi. rewrite (E i Hi). unfold reflect_left.
  rewrite conj_sub, !conj_mul, conj_conj. unfold sub, CHx. ring.
Qed.

Lemma Cx_reflect_right (n : nat) (t : T) (x : nat -> T)
    (c c1 : nat -> nat -> T) (i : nat) :
  (forall j, j < n -> c1 i j = reflect_right n t x c i j) ->
  Cx n c1 x i =
  sub (Cx n c x i) (mul (mul t (Cx n c x i)) (norm2 n x)).
Proof.
  intro E. unfold Cx, norm2.
  rewrite <- sum_upto_sub_mul. apply sum_upto_ext.
  intros j Hj. rewrite (E j Hj). unfold reflect_right, sub, Cx. ring.
Qed.

(** Two reflections make one with the scalar
    [t*(2 - t*(x^H x))]. *)
Lemma reflect_left_twice (m : nat) (t : T) (x : nat -> T)
    (c c1 : nat -> nat -> T) (i j : nat) :
  (forall i', i' < m -> c1 i' j = reflect_left m t x c i' j) ->
  i < m ->
  reflect_left m t x c1 i j =
  sub (c i j)
      (mul (mul t (sub two (mul t (norm2 m x))))
           (mul (x i) (conj (CHx m c x j)))).
Proof.
  intros E Hi. unfold reflect_left at 1.
  rewrite (CHx_reflect_left m t x c c1 j E), (E i Hi).
  unfold reflect_left.
  rewrite conj_sub, !conj_mul, conj_conj, conj_norm2.
  unfold sub, two. ring.
Qed.

Lemma reflect_right_twice (n : nat) (t : T) (x : nat -> T)
    (c c1 : nat -> nat -> T) (i j : nat) :
  (forall j', j' < n -> c1 i j' = reflect_right n t x c i j') ->
  j < n ->
  reflect_right n t x c1 i j =
  sub (c i j)
      (mul (mul t (sub two (mul t (norm2 n x))))
           (mul (Cx n c x i) (conj (x j)))).
Proof.
  intros E Hj. unfold reflect_right at 1.
  rewrite (Cx_reflect_right n t x c c1 i E), (E j Hj).
  unfold reflect_right, sub, two. ring.
Qed.

End ExactScalars.

(* ================================================================== *)
(** * [larf] over exact scalars *)
(* ================================================================== *)

Section ExactLarf.
Context {T : Type} {S : Scalar T} {L : ScalarLaws T}.
Context {vector_t : Type} {VV : VectorView T vector_t}.

Add Ring scalar_ring_larf : (@scalar_ring T S L).

Lemma ltb_true (a b : nat) : a < b -> Nat.ltb a b = true.
Proof. intro E. apply Nat.ltb_lt. exact E. Qed.

Lemma eqb_0_false (a : nat) : 0 < a -> Nat.eqb a 0 = false.
Proof. intro E. apply Nat.eqb_neq. lia. Qed.

Lemma gemv_elements_ConjTrans (m n : nat) (A : nat -> nat -> T)
    (x y : nat -> T) (j : nat) :
  0 < m -> j < n ->
  gemv_elements ConjTrans m n one A x zero y j = CHx m A x j.
Proof.
  intros Hm Hj. unfold gemv_elements.
  rewrite (eqb_0_false _ Hm), (eqb_0_false n) by lia. simpl.
  rewrite (ltb_true _ _ Hj). unfold blend. rewrite is_zero_zero.
  unfold CHx, op_entry. ring.
Qed.

Lemma gemv_elements_NoTrans (m n : nat) (A : nat -> nat -> T)
    (x y : nat -> T) (i : nat) :
  i < m -> 0 < n ->
  gemv_elements NoTrans m n one A x zero y i = Cx n A x i.
Proof.
  intros Hi Hn. unfold gemv_elements.
  rewrite (eqb_0_false _ Hn), (eqb_0_false m) by lia. simpl.
  rewrite (ltb_true _ _ Hi). unfold blend. rewrite is_zero_zero.
  unfold Cx, op_entry. ring.
Qed.

(** One application of [larf], element by element. *)
Lemma larf_Left_entry (v : vector_t) (s : larf_refs T) (i j : nat) :
  write_policy (C s) = Dense ->
  i < nrows (C s) -> j < ncols (C s) ->
  entry (C (snd (larf Left v s))) i j =
  reflect_left (nrows (C s)) (tau s) (elt (starts_with_one v))
               (entry (C s)) i j.
Proof.
  intros HD Hi Hj. rewrite (larf_Left_run v s HD). simpl.
  rewrite (ltb_true _ _ Hi), (ltb_true _ _ Hj). simpl.
  rewrite gemv_elements_ConjTrans by lia.
  unfold reflect_left, sub. ring.
Qed.

Lemma larf_Right_entry (v : vector_t) (s : larf_refs T) (i j : nat) :
  write_policy (C s) = Dense ->
  i < nrows (C s) -> j < ncols (C s) ->
  entry (C (snd (larf Right v s))) i j =
  reflect_right (ncols (C s)) (tau s) (elt (starts_with_one v))
                (entry (C s)) i j.
Proof.
  intros HD Hi Hj. rewrite (larf_Right_run v s HD). simpl.
  rewrite (ltb_true _ _ Hi), (ltb_true _ _ Hj). simpl.
  rewrite gemv_elements_NoTrans by lia.
  unfold reflect_right, sub. ring.
Qed.

End ExactLarf.

(* ================================================================== *)
(** * The adapted view *)
(* ================================================================== *)

(** C2: for every vector view [v], the adapted view
    [vector_that_starts_with_one(v)] has the length of [v]; its element
    at index [0] is the scalar [1] whatever [v] stores there, and its
    element at every index [i] with [1 <= i <= n-1] is [v[i]]. *)
Theorem starts_with_one_size_and_elements
    {T : Type} {S : Scalar T} {vector_t : Type} {VV : VectorView T vector_t}
    (v : vector_t) :
  size (starts_with_one v) = size v /\
  elt (starts_with_one v) 0 = one /\
  forall i, 1 <= i <= size v - 1 -> elt (starts_with_one v) i = elt v i.
Proof.
  split; [reflexivity|]. split; [reflexivity|].
  intros i [Hi _]. simpl. unfold starts_with_one_elt. simpl.
  destruct i as [|i]; [lia | reflexivity].
Qed.

Lemma starts_with_one_size_and_elements_witness :
  size (starts_with_one (vector_of_list [2; 5; 7]%Z)) = 3 /\
  elt (starts_with_one (vector_of_list [2; 5; 7]%Z)) 0 = 1%Z /\
  elt (starts_with_one (vector_of_list [2; 5; 7]%Z)) 2 = 7%Z.
Proof.
  destruct (starts_with_one_size_and_elements (vector_of_list [2; 5; 7]%Z))
    as [Hsize [Hzero Hrest]].
  split; [exact Hsize|]. split; [exact Hzero|].
  apply (Hrest 2). simpl. lia.
Defined.

(** The scenario of the spec: the caller supplies the length-1 vector
    [[2]]; the adapted view has length [1] and reads [1] at index [0]. *)
Example starts_with_one_of_length_one :
  to_list (starts_with_one (vector_of_list [2%Z])) = [1%Z].
Proof. reflexivity. Qed.

(** C6, on the code: whatever [rows.first] is, [subvector] on an
    adapted view returns the value of the underlying
    [subvector(v.v_, rows)], which is an adapted view in every
    instantiation that compiles; so its element [0] reads [1] also when
    [rows.first] is not [0], and no sub-range is a plain view. *)
Theorem subvector_starts_with_one_always_adapted
    {T : Type} {S : Scalar T} {vector_t : Type} {VV : VectorView T vector_t}
    {SL : Sliceable vector_t (vector_that_starts_with_one vector_t)}
    (v : vector_that_starts_with_one vector_t) (rows : SliceSpec) :
  subvector_starts_with_one v rows = subvector (v_ v) rows /\
  elt (subvector_starts_with_one v rows) 0 = one.
Proof.
  unfold subvector_starts_with_one.
  destruct (Nat.eqb (first rows) 0); split; reflexivity.
Qed.

(** The sub-range [(1, 3)] of the adapted view over [[4; 2; 5]], which
    reads [[1; 2; 5]]: the result reads [[1; 5]], with the [1] at index
    [0], where a plain sub-view would read [[2; 5]]. *)
Example subvector_from_one_reads_one :
  to_list (subvector_starts_with_one (starts_with_one v_4_2_5) (Slice 1 3))
  = [1; 5]%Z /\
  to_list (subvector_starts_with_one (starts_with_one v_4_2_5) (Slice 0 2))
  = [1; 2]%Z.
Proof. split; reflexivity. Qed.

(* ================================================================== *)
(** * [lassq] *)
(* ================================================================== *)

(** C7: [lassq] throws for every input [n], [X], [incx], [scale] and
    [sumsq], and computes nothing: [scale] and [sumsq] are as before. *)
Theorem lassq_always_throws
    {T : Type} (n : nat) (X : list T) (incx : nat) (scale sumsq : T) :
  lassq n X incx (scale, sumsq) = (Thrown std_exception, (scale, sumsq)).
Proof. reflexivity. Qed.

(* ================================================================== *)
(** * [larf] *)
(* ================================================================== *)

(** C4: [larf] signals [InvalidArgument] when [side] is neither
    [Side::Left] nor [Side::Right], and when dense write access to [C]
    is denied; in both cases no kernel has been called and [tau], [C]
    and [work] are as before the call. *)
Theorem larf_invalid_argument
    {T : Type} {S : Scalar T} {vector_t : Type} {VV : VectorView T vector_t}
    (side : Side) (v : vector_t) (s : larf_refs T) :
  (side <> Left /\ side <> Right) \/
  access_denied dense (write_policy (C s)) = true ->
  larf side v s = (Thrown InvalidArgument, s).
Proof.
  intros [[HL HR] | HD].
  - apply larf_bad_side; assumption.
  - apply larf_access_denied. exact HD.
Qed.

Lemma larf_invalid_argument_witness :
  larf (Side_other 0) v_5_3 (refs_Z 1 identity_Z)
  = (Thrown InvalidArgument, refs_Z 1 identity_Z)
  /\
  larf Left v_5_3 (refs_Z 1 identity_Z_upper)
  = (Thrown InvalidArgument, refs_Z 1 identity_Z_upper).
Proof.
  split.
  - apply (larf_invalid_argument (Side_other 0) v_5_3 (refs_Z 1 identity_Z)).
    left. split; discriminate.
  - apply (larf_invalid_argument Left v_5_3 (refs_Z 1 identity_Z_upper)).
    right. reflexivity.
Defined.

Lemma larf_at_own
    {T : Type} {S : Scalar T} {vector_t : Type} {VV : VectorView T vector_t}
    (side : Side) (v : vector_t) (s : larf_refs T) :
  larf_at tau_own side v s = larf side v s.
Proof. reflexivity. Qed.

(** C10, as amended: when [tau] names an object of its own, not an
    element of [C] or of [work], [larf] leaves it alone: after every
    call that returns, [tau] holds the value it held before, and that
    value was only read, to form the scalar [-tau] of the rank-1
    update. *)
Theorem larf_leaves_tau
    {T : Type} {S : Scalar T} {vector_t : Type} {VV : VectorView T vector_t}
    (p : tau_place) (side : Side) (v : vector_t) (s s' : larf_refs T) :
  p = tau_own ->
  larf_at p side v s = (Returned tt, s') ->
  read_tau p s' = read_tau p s /\
  exists trans,
    calls s' =
    calls s ++ [call_gemv trans one zero; call_ger (neg (read_tau p s))].
Proof.
  intros -> E. rewrite larf_at_own in E.
  destruct (larf_cases side v s) as [F | [trans [C' F]]].
  - rewrite F in E. discriminate.
  - rewrite F in E. inversion E. simpl. split; [reflexivity|].
    exists trans. rewrite <- app_assoc. reflexivity.
Qed.

Lemma larf_leaves_tau_witness :
  read_tau tau_own
    (snd (larf_at tau_own Left v_5_3 (refs_Z 3 identity_Z))) = 3%Z.
Proof.
  apply (larf_leaves_tau tau_own Left v_5_3 (refs_Z 3 identity_Z)
           (snd (larf_at tau_own Left v_5_3 (refs_Z 3 identity_Z)))).
  - reflexivity.
  - reflexivity.
Defined.

(** C10, as stated, fails when [tau] names [work[0]]: the call
    [larf(Left, v, work[0], C, work)] on the identity, with
    [work = [7; 7]] and [v2 = [1; 3]], returns; the [gemv] has stored
    [C^H v2 = [1; 3]] in [work] before [-tau] is read, so the rank-1
    update gets the scalar [-1], and [tau] holds [1] after the call
    where it held [7] before. *)
Lemma larf_changes_aliased_tau :
  fst (larf_at (tau_in_work 0) Left v_5_3 (refs_Z 0 identity_Z))
  = Returned tt /\
  read_tau (tau_in_work 0) (refs_Z 0 identity_Z) = 7%Z /\
  read_tau (tau_in_work 0)
    (snd (larf_at (tau_in_work 0) Left v_5_3 (refs_Z 0 identity_Z))) = 1%Z /\
  calls (snd (larf_at (tau_in_work 0) Left v_5_3 (refs_Z 0 identity_Z)))
  = [call_gemv ConjTrans 1%Z 0%Z; call_ger (-1)%Z].
Proof. repeat split. Qed.

(** The same with [tau] naming [C(1,1)]: the rank-1 update that uses
    [-tau] overwrites it. *)
Example larf_changes_tau_in_C :
  read_tau (tau_in_C 1 1) (refs_Z 0 identity_Z) = 1%Z /\
  read_tau (tau_in_C 1 1)
    (snd (larf_at (tau_in_C 1 1) Left v_5_3 (refs_Z 0 identity_Z)))
  = (-8)%Z.
Proof. split; reflexivity. Qed.

(** For a [tau] of its own, a call that throws leaves it alone as
    well. *)
Lemma tau_untouched_on_every_path
    {T : Type} {S : Scalar T} {vector_t : Type} {VV : VectorView T vector_t}
    (side : Side) (v : vector_t) (s : larf_refs T) :
  tau (snd (larf side v s)) = tau s.
Proof.
  destruct (larf_cases side v s) as [F | [trans [C' F]]];
    rewrite F; reflexivity.
Qed.

(** C1: with [side = Left], [larf] first calls [gemv] with
    [op = ConjTrans], [alpha = 1] and [beta = 0] on the adapted view
    [v2] of [v], which makes [work = C^H v2], and then calls [ger] with
    the scalar [-tau], which makes [C = C - tau*v2*work^H]; with
    [side = Right] the [gemv] has [op = NoTrans], which makes
    [work = C v2], and the [ger] makes [C = C - tau*work*v2^H]. *)
Theorem larf_gemv_then_ger
    {T : Type} {S : Scalar T} {L : ScalarLaws T}
    {vector_t : Type} {VV : VectorView T vector_t}
    (v : vector_t) (s : larf_refs T) :
  write_policy (C s) = Dense ->
  let v2 := starts_with_one v in
  (let w := gemv ConjTrans one (C s) v2 zero (work s) in
   larf Left v s =
   (Returned tt,
    Refs (tau s) (ger (neg (tau s)) v2 w (C s)) w
         (calls s ++ [call_gemv ConjTrans one zero; call_ger (neg (tau s))]))
   /\
   forall i j, i < nrows (C s) -> j < ncols (C s) ->
     elt w j = CHx (nrows (C s)) (entry (C s)) (elt v2) j /\
     entry (ger (neg (tau s)) v2 w (C s)) i j =
     sub (entry (C s) i j) (mul (tau s) (mul (elt v2 i) (conj (elt w j)))))
  /\
  (let w := gemv NoTrans one (C s) v2 zero (work s) in
   larf Right v s =
   (Returned tt,
    Refs (tau s) (ger (neg (tau s)) w v2 (C s)) w
         (calls s ++ [call_gemv NoTrans one zero; call_ger (neg (tau s))]))
   /\
   forall i j, i < nrows (C s) -> j < ncols (C s) ->
     elt w i = Cx (ncols (C s)) (entry (C s)) (elt v2) i /\
     entry (ger (neg (tau s)) w v2 (C s)) i j =
     sub (entry (C s) i j) (mul (tau s) (mul (elt w i) (conj (elt v2 j))))).
Proof.
  intros HD v2. split.
  - intro w. split.
    + rewrite (larf_Left_run v s HD). rewrite <- app_assoc. reflexivity.
    + intros i j Hi Hj. split.
      * apply gemv_elements_ConjTrans; lia.
      * simpl. rewrite (ltb_true _ _ Hi), (ltb_true _ _ Hj). simpl.
        apply add_neg_mul.
  - intro w. split.
    + rewrite (larf_Right_run v s HD). rewrite <- app_assoc. reflexivity.
    + intros i j Hi Hj. split.
      * apply gemv_elements_NoTrans; lia.
      * simpl. rewrite (ltb_true _ _ Hi), (ltb_true _ _ Hj). simpl.
        apply add_neg_mul.
Qed.

Lemma larf_gemv_then_ger_witness :
  calls (snd (larf Left v_5_3 (refs_Z 1 identity_Z)))
  = [call_gemv ConjTrans 1%Z 0%Z; call_ger (-1)%Z].
Proof.
  destruct (larf_gemv_then_ger v_5_3 (refs_Z 1 identity_Z) eq_refl)
    as [[E _] _].
  rewrite E. reflexivity.
Defined.

(** The scenario above in numbers: [C] the 2-by-2 identity,
    [v2 = [1; 3]], [tau = 1]. *)
Example larf_Left_identity_2x2 :
  to_list (work (snd (larf Left v_5_3 (refs_Z 1 identity_Z)))) = [1; 3]%Z /\
  to_rows (C (snd (larf Left v_5_3 (refs_Z 1 identity_Z))))
  = [[0; -3]; [-3; -8]]%Z.
Proof. split; reflexivity. Qed.

Example larf_Right_2x2 :
  to_list (work (snd (larf Right v_5_3
                        (refs_Z 1 (matrix_of_rows [[1; 2]; [0; 1]]%Z Dense)))))
  = [7; 3]%Z /\
  to_rows (C (snd (larf Right v_5_3
                     (refs_Z 1 (matrix_of_rows [[1; 2]; [0; 1]]%Z Dense)))))
  = [[-6; -19]; [-3; -8]]%Z.
Proof. split; reflexivity. Qed.

Section LarfTwice.
Context {T : Type} {S : Scalar T} {L : ScalarLaws T}.
Context {vector_t : Type} {VV : VectorView T vector_t}.

Add Ring scalar_ring_twice : (@scalar_ring T S L).

(** A returning call keeps the shape and the write policy of [C]. *)
Lemma larf_Left_shape (v : vector_t) (s : larf_refs T) :
  write_policy (C s) = Dense ->
  fst (larf Left v s) = Returned tt /\
  nrows (C (snd (larf Left v s))) = nrows (C s) /\
  ncols (C (snd (larf Left v s))) = ncols (C s) /\
  write_policy (C (snd (larf Left v s))) = Dense /\
  tau (snd (larf Left v s)) = tau s.
Proof.
  intro HD. rewrite (larf_Left_run v s HD). simpl.
  repeat split; try reflexivity. exact HD.
Qed.

Lemma larf_Right_shape (v : vector_t) (s : larf_refs T) :
  write_policy (C s) = Dense ->
  fst (larf Right v s) = Returned tt /\
  nrows (C (snd (larf Right v s))) = nrows (C s) /\
  ncols (C (snd (larf Right v s))) = ncols (C s) /\
  write_policy (C (snd (larf Right v s))) = Dense /\
  tau (snd (larf Right v s)) = tau s.
Proof.
  intro HD. rewrite (larf_Right_run v s HD). simpl.
  repeat split; try reflexivity. exact HD.
Qed.

Lemma larf_twice_run (side : Side) (v : vector_t) (s : larf_refs T) :
  fst (larf side v s) = Returned tt ->
  larf_twice side v s = larf side v (snd (larf side v s)).
Proof.
  intro E. unfold larf_twice, bind.
  destruct (larf side v s) as [[[]|e] s1]; simpl in *;
    [reflexivity | discriminate].
Qed.

Lemma larf_twice_Left_entry (v : vector_t) (s : larf_refs T) (i j : nat) :
  write_policy (C s) = Dense ->
  i < nrows (C s) -> j < ncols (C s) ->
  entry (C (snd (larf_twice Left v s))) i j =
  sub (entry (C s) i j)
      (mul (mul (tau s)
                (sub two
                     (mul (tau s)
                          (norm2 (nrows (C s)) (elt (starts_with_one v))))))
           (mul (elt (starts_with_one v) i)
                (conj (CHx (nrows (C s)) (entry (C s))
                           (elt (starts_with_one v)) j)))).
Proof.
  intros HD Hi Hj.
  destruct (larf_Left_shape v s HD) as [R [Em [En [HD1 Et]]]].
  rewrite (larf_twice_run Left v s R).
  rewrite larf_Left_entry by (try exact HD1; lia).
  rewrite Em, Et. apply reflect_left_twice; [|exact Hi].
  intros i' Hi'. apply larf_Left_entry; assumption.
Qed.

Lemma larf_twice_Right_entry (v : vector_t) (s : larf_refs T) (i j : nat) :
  write_policy (C s) = Dense ->
  i < nrows (C s) -> j < ncols (C s) ->
  entry (C (snd (larf_twice Right v s))) i j =
  sub (entry (C s) i j)
      (mul (mul (tau s)
                (sub two
                     (mul (tau s)
                          (norm2 (ncols (C s)) (elt (starts_with_one v))))))
           (mul (Cx (ncols (C s)) (entry (C s))
                    (elt (starts_with_one v)) i)
                (conj (elt (starts_with_one v) j)))).
Proof.
  intros HD Hi Hj.
  destruct (larf_Right_shape v s HD) as [R [Em [En [HD1 Et]]]].
  rewrite (larf_twice_run Right v s R).
  rewrite larf_Right_entry by (try exact HD1; lia).
  rewrite En, Et. apply reflect_right_twice; [|exact Hj].
  intros j' Hj'. apply larf_Right_entry; assumption.
Qed.

Lemma larf_twice_shape (side : Side) (v : vector_t) (s : larf_refs T) :
  side = Left \/ side = Right ->
  write_policy (C s) = Dense ->
  fst (larf_twice side v s) = Returned tt /\
  nrows (C (snd (larf_twice side v s))) = nrows (C s) /\
  ncols (C (snd (larf_twice side v s))) = ncols (C s).
Proof.
  intros [-> | ->] HD.
  - destruct (larf_Left_shape v s HD) as [R [Em [En [HD1 Et]]]].
    rewrite (larf_twice_run Left v s R).
    destruct (larf_Left_shape v _ HD1) as [R2 [Em2 [En2 _]]].
    rewrite R2, Em2, En2, Em, En. repeat split.
  - destruct (larf_Right_shape v s HD) as [R [Em [En [HD1 Et]]]].
    rewrite (larf_twice_run Right v s R).
    destruct (larf_Right_shape v _ HD1) as [R2 [Em2 [En2 _]]].
    rewrite R2, Em2, En2, Em, En. repeat split.
Qed.

Lemma sub_self_iff (c x : T) : sub c x = c <-> x = zero.
Proof.
  split; intro E.
  - apply (add_cancel_l (sub c x)). rewrite E at 2. unfold sub. ring.
  - subst x. unfold sub. ring.
Qed.

Lemma sub_zero_iff (a b : T) : sub a b = zero <-> b = a.
Proof.
  split; intro E.
  - apply (add_cancel_l (neg b)).
    transitivity (zero : T); [ring|]. rewrite <- E. unfold sub. ring.
  - subst b. unfold sub. ring.
Qed.

Lemma conj_eq_zero (x : T) : conj x = zero -> x = zero.
Proof.
  intro E. rewrite <- (conj_conj x), E. apply conj_zero.
Qed.


Lemma mul_one_l (x : T) : mul one x = x.
Proof. ring. Qed.

Lemma twice_scalar_zero (t N : T) :
  t = zero \/ mul t N = two -> mul t (sub two (mul t N)) = zero.
Proof.
  intros [-> | E]; [ring|]. rewrite E. unfold sub. ring.
Qed.

End LarfTwice.

Section Involution.
Context {T : Type} {S : Scalar T} {D : ScalarDomain T}.
Context {vector_t : Type} {VV : VectorView T vector_t}.

Add Ring scalar_ring_involution : (@scalar_ring T S domain_laws).

(** When does the rank-1 term [t*(2 - t*N) * u z^T] vanish, for [u]
    with [u[0] = 1]. *)
Lemma rank_one_vanishes_iff (t N : T) (P Q : nat) (u z : nat -> T) :
  u 0 = one ->
  (P = 0 -> forall q, q < Q -> z q = zero) ->
  (forall p q, p < P -> q < Q ->
     mul (mul t (sub two (mul t N))) (mul (u p) (z q)) = zero) <->
  (t = zero \/ mul t N = two \/ forall q, q < Q -> z q = zero).
Proof.
  intros Hu HP. split.
  - intro E.
    destruct (is_zero t) eqn:Zt.
    { left. apply is_zero_spec. exact Zt. }
    destruct (is_zero (sub two (mul t N))) eqn:Zs.
    { right. left. apply is_zero_spec in Zs.
      apply (proj1 (sub_zero_iff _ _)) in Zs. exact Zs. }
    right. right. intros q Hq.
    destruct P as [|P]; [apply HP; [reflexivity | exact Hq]|].
    specialize (E 0 q (Nat.lt_0_succ P) Hq). rewrite Hu in E.
    apply mul_eq_zero in E. destruct E as [E | E].
    + apply mul_eq_zero in E. destruct E as [E | E].
      * apply is_zero_spec in E. congruence.
      * apply is_zero_spec in E. congruence.
    + rewrite mul_one_l in E. exact E.
  - intros [Ht | [Ht | Hz]] p q Hp Hq.
    + rewrite twice_scalar_zero by (left; exact Ht). ring.
    + rewrite twice_scalar_zero by (right; exact Ht). ring.
    + rewrite (Hz q Hq). ring.
Qed.

Lemma larf_twice_Left_iff (v : vector_t) (s : larf_refs T) :
  write_policy (C s) = Dense ->
  size v = nrows (C s) ->
  same_matrix (C (snd (larf_twice Left v s))) (C s) <->
  (tau s = zero \/ mul (tau s) (vHv v) = two \/
   forall k, k < ncols (C s) -> product_with_v Left v (C s) k = zero).
Proof.
  intros HD Hsize.
  destruct (larf_twice_shape Left v s (or_introl eq_refl) HD)
    as [_ [Em En]].
  assert (HN : vHv v = norm2 (nrows (C s)) (elt (starts_with_one v))).
  { unfold vHv. simpl. unfold starts_with_one_size. simpl.
    rewrite Hsize. reflexivity. }
  rewrite HN. simpl.
  set (W := CHx (nrows (C s)) (entry (C s)) (elt (starts_with_one v))).
  assert (R := rank_one_vanishes_iff (tau s)
                 (norm2 (nrows (C s)) (elt (starts_with_one v)))
                 (nrows (C s)) (ncols (C s))
                 (elt (starts_with_one v)) (fun j => conj (W j))
                 eq_refl).
  assert (HP : nrows (C s) = 0 ->
               forall q, q < ncols (C s) -> conj (W q) = zero).
  { intros E q _. unfold W, CHx. rewrite E. simpl. apply conj_zero. }
  specialize (R HP). clear HP.
  split.
  - intros [_ [_ E]].
    assert (E' : forall p q, p < nrows (C s) -> q < ncols (C s) ->
              mul (mul (tau s)
                     (sub two
                        (mul (tau s)
                           (norm2 (nrows (C s))
                              (elt (starts_with_one v))))))
                  (mul (elt (starts_with_one v) p) (conj (W q))) = zero).
    { intros p q Hp Hq. apply (sub_self_iff (entry (C s) p q)).
      unfold W. rewrite <- (larf_twice_Left_entry v s p q HD Hp Hq).
      apply E; [rewrite Em | rewrite En]; assumption. }
    destruct (proj1 R E') as [Ht | [Ht | Hz]].
    + left. exact Ht.
    + right. left. exact Ht.
    + right. right. intros k Hk. apply conj_eq_zero. apply Hz. exact Hk.
  - intro Hyp.
    assert (E' : tau s = zero \/
                 mul (tau s)
                   (norm2 (nrows (C s)) (elt (starts_with_one v))) = two \/
                 forall q, q < ncols (C s) -> conj (W q) = zero).
    { destruct Hyp as [Ht | [Ht | Hz]].
      - left. exact Ht.
      - right. left. exact Ht.
      - right. right. intros q Hq.
        replace (W q) with (zero : T)
          by (symmetry; apply (Hz q Hq)).
        apply conj_zero. }
    pose proof (proj2 R E') as Z.
    split; [exact Em|]. split; [exact En|].
    intros i j Hi Hj. rewrite Em in Hi. rewrite En in Hj.
    rewrite (larf_twice_Left_entry v s i j HD Hi Hj).
    apply sub_self_iff. apply Z; assumption.
Qed.

Lemma larf_twice_Right_iff (v : vector_t) (s : larf_refs T) :
  write_policy (C s) = Dense ->
  size v = ncols (C s) ->
  same_matrix (C (snd (larf_twice Right v s))) (C s) <->
  (tau s = zero \/ mul (tau s) (vHv v) = two \/
   forall k, k < nrows (C s) -> product_with_v Right v (C s) k = zero).
Proof.
  intros HD Hsize.
  destruct (larf_twice_shape Right v s (or_intror eq_refl) HD)
    as [_ [Em En]].
  assert (HN : vHv v = norm2 (ncols (C s)) (elt (starts_with_one v))).
  { unfold vHv. simpl. unfold starts_with_one_size. simpl.
    rewrite Hsize. reflexivity. }
  rewrite HN. simpl.
  set (W := Cx (ncols (C s)) (entry (C s)) (elt (starts_with_one v))).
  assert (R := rank_one_vanishes_iff (tau s)
                 (norm2 (ncols (C s)) (elt (starts_with_one v)))
                 (ncols (C s)) (nrows (C s))
                 (fun j => conj (elt (starts_with_one v) j)) W
                 conj_one).
  assert (HP : ncols (C s) = 0 ->
               forall q, q < nrows (C s) -> W q = zero).
  { intros E q _. unfold W, Cx. rewrite E. reflexivity. }
  specialize (R HP). clear HP.
  split.
  - intros [_ [_ E]].
    apply R. intros p q Hp Hq.
    assert (X : entry (C (snd (larf_twice Right v s))) q p
                = entry (C s) q p)
      by (apply E; [rewrite Em | rewrite En]; assumption).
    rewrite (larf_twice_Right_entry v s q p HD Hq Hp) in X.
    apply (proj1 (sub_self_iff _ _)) in X.
    unfold W. rewrite <- X. ring.
  - intro Hyp. pose proof (proj2 R Hyp) as Z.
    split; [exact Em|]. split; [exact En|].
    intros i j Hi Hj. rewrite Em in Hi. rewrite En in Hj.
    rewrite (larf_twice_Right_entry v s i j HD Hi Hj).
    apply sub_self_iff.
    rewrite <- (Z j i Hj Hi). unfold W. ring.
Qed.

End Involution.



Example larf_tau_zero_2x2 :
  to_rows (C (snd (larf Left v_5_3 (refs_Z 0 identity_Z))))
  = [[1; 0]; [0; 1]]%Z /\
  to_list (work (snd (larf Left v_5_3 (refs_Z 0 identity_Z)))) = [1; 3]%Z.
Proof. split; reflexivity. Qed.


(** C5, as amended: over scalars without zero divisors, and for [v] of
    the length [larf] expects, applying [larf] twice with the same
    [side], [v] and [tau] returns [C] to its original value exactly
    when [tau*(v^H v) = 2], or [tau = 0], or the product [C^H v] (for
    [Left]; [C v] for [Right]) is zero, where [v] is the adapted vector
    with its leading [1]. *)
Theorem larf_twice_returns_iff
    {T : Type} {S : Scalar T} {D : ScalarDomain T}
    {vector_t : Type} {VV : VectorView T vector_t}
    (side : Side) (v : vector_t) (s : larf_refs T) :
  side = Left \/ side = Right ->
  write_policy (C s) = Dense ->
  size v = reflected_length side (C s) ->
  fst (larf_twice side v s) = Returned tt /\
  (same_matrix (C (snd (larf_twice side v s))) (C s) <->
   (tau s = zero \/ mul (tau s) (vHv v) = two \/
    forall k, k < product_length side (C s) ->
              product_with_v side v (C s) k = zero)).
Proof.
  intros Hside HD Hsize. split.
  - apply (larf_twice_shape side v s Hside HD).
  - destruct Hside as [-> | ->].
    + apply larf_twice_Left_iff; assumption.
    + apply larf_twice_Right_iff; assumption.
Qed.

(** With [v2 = [1; i]] and [tau = 1], [tau*(v^H v) = 2] and two
    applications give back the identity. *)
Lemma larf_twice_returns_iff_witness :
  same_matrix
    (C (snd (larf_twice Left v_0_i (refs_gauss (Gauss 1 0) identity_gauss))))
    identity_gauss.
Proof.
  destruct (larf_twice_returns_iff Left v_0_i
              (refs_gauss (Gauss 1 0) identity_gauss)) as [_ R].
  - left. reflexivity.
  - reflexivity.
  - reflexivity.
  - apply R. right. left. reflexivity.
Defined.

Example larf_once_gauss :
  to_rows (C (snd (larf Left v_0_i (refs_gauss (Gauss 1 0) identity_gauss))))
  = [[Gauss 0 0; Gauss 0 1]; [Gauss 0 (-1); Gauss 0 0]].
Proof. reflexivity. Qed.

Ltac two_by_two :=
  split; [reflexivity|]; split; [reflexivity|];
  intros i j Hi Hj; simpl in Hi, Hj;
  destruct i as [|[|i]]; try lia;
  destruct j as [|[|j]]; try lia; reflexivity.

(** C5, as stated, fails: with [tau = 0] two applications give back [C]
    although [tau*(v^H v) = 0]; and with [tau = 1] and [C^H v = 0] they
    give back [C] although [tau*(v^H v) = 10]. *)
Lemma larf_twice_returns_without_two :
  (same_matrix (C (snd (larf_twice Left v_5_3 (refs_Z 0 identity_Z))))
               (C (refs_Z 0 identity_Z)) /\
   mul (tau (refs_Z 0 identity_Z)) (vHv v_5_3) <> two)
  /\
  (same_matrix (C (snd (larf_twice Left v_5_3 (refs_Z 1 annihilated_Z))))
               (C (refs_Z 1 annihilated_Z)) /\
   mul (tau (refs_Z 1 annihilated_Z)) (vHv v_5_3) <> two).
Proof.
  split; split; try two_by_two; discriminate.
Qed.

(** Without the condition, two applications do change [C]: [tau = 1],
    [v2 = [1; 3]] on the identity. *)
Example larf_twice_changes_C :
  to_rows (C (snd (larf_twice Left v_5_3 (refs_Z 1 identity_Z))))
  = [[9; 24]; [24; 73]]%Z.
Proof. reflexivity. Qed.

(* ================================================================== *)
(** * The kernels with a [beta] *)
(* ================================================================== *)

Section BetaZero.
Context {T : Type} {S : Scalar T} {Z0 : ZeroTest T}.

Lemma blend_beta_zero (term dest : T) : blend term zero dest = term.
Proof.
  unfold blend.
  replace (is_zero (zero : T)) with true; [reflexivity|].
  symmetry. apply is_zero_spec. reflexivity.
Qed.

Lemma gemv_elements_beta_zero (trans : Op) (m n : nat) (alpha : T)
    (A : nat -> nat -> T) (x y1 y2 : nat -> T) (i : nat) :
  negb (Nat.eqb m 0 || Nat.eqb n 0)
  && Nat.ltb i (match trans with NoTrans => m | _ => n end) = true ->
  gemv_elements trans m n alpha A x zero y1 i =
  gemv_elements trans m n alpha A x zero y2 i.
Proof.
  intro W. apply andb_true_iff in W. destruct W as [Q R].
  unfold gemv_elements. apply negb_true_iff in Q. rewrite Q, R.
  rewrite !blend_beta_zero. reflexivity.
Qed.

Lemma gemv_elements_frame (trans : Op) (m n : nat) (alpha beta : T)
    (A : nat -> nat -> T) (x y : nat -> T) (i : nat) :
  negb (Nat.eqb m 0 || Nat.eqb n 0)
  && Nat.ltb i (match trans with NoTrans => m | _ => n end) = false ->
  gemv_elements trans m n alpha A x beta y i = y i.
Proof.
  intro W. unfold gemv_elements.
  destruct (Nat.eqb m 0 || Nat.eqb n 0); [reflexivity|].
  simpl in W. rewrite W. reflexivity.
Qed.

Lemma square_mv_beta_zero (n : nat) (alpha : T) (a : nat -> nat -> T)
    (x y1 y2 : nat -> T) (i : nat) :
  Nat.ltb i n = true ->
  square_mv n alpha a x zero y1 i = square_mv n alpha a x zero y2 i.
Proof.
  intro W. unfold square_mv. rewrite W, !blend_beta_zero. reflexivity.
Qed.

Lemma update3_beta_zero (c : level3_call T) (C1 C2 : nat -> nat -> T)
    (i j : nat) :
  beta3 c = zero -> update3 c C1 i j = update3 c C2 i j.
Proof.
  intro E. unfold update3, scaled. rewrite E, !blend_beta_zero.
  replace (is_zero (zero : T)) with true
    by (symmetry; apply is_zero_spec; reflexivity).
  reflexivity.
Qed.

End BetaZero.

Section ReductionZero.
Context {T : Type} {S : Scalar T}.





(** Off the diagonal, and for the kernels whose result is not
    Hermitian, the element the call reads is the stored one; on a
    Hermitian diagonal it is the stored one when that is real. *)
Lemma element3_stored (c : level3_call T) (C0 : nat -> nat -> T) (i j : nat) :
  hermitian_result c = false \/ i <> j \/ real (C0 i j) = C0 i j ->
  element3 c C0 i j = C0 i j.
Proof.
  unfold element3. intros [E | [E | E]].
  - rewrite E. reflexivity.
  - apply Nat.eqb_neq in E. rewrite E, andb_false_r. reflexivity.
  - destruct (hermitian_result c && Nat.eqb i j); [exact E | reflexivity].
Qed.

End ReductionZero.



(** The section "C := beta C if M, N > 0 and K = 0" of the tests, on a
    2-by-2 [C] of ones; rows are listed top to bottom.  For the rank-k
    updates the storage outside the [uplo] half is not part of [C] and
    keeps its contents. *)
Example gemm_k_zero_2x2 :
  match run3 gemm_2x2_k0 ones2 with
  | Returned C' => elements3 2 2 C'
  | Thrown _ => []
  end = [[2; 2]; [2; 2]]%Z.
Proof. reflexivity. Qed.

Example herk_k_zero_2x2 :
  match run3 herk_2x2_k0 ones2 with
  | Returned C' => elements3 2 2 C'
  | Thrown _ => []
  end = [[Gauss 2 0; Gauss 2 0]; [Gauss 1 0; Gauss 2 0]].
Proof. reflexivity. Qed.

Example syr2k_her2k_k_zero_2x2 :
  match run3 (syr2k_call Lower Trans 2 0 1%Z ones2 ones2 2%Z) ones2 with
  | Returned C' => elements3 2 2 C'
  | Thrown _ => []
  end = [[2; 1]; [2; 2]]%Z /\
  match run3 (her2k_call Lower ConjTrans 2 0 1%Z ones2 ones2 2%Z) ones2 with
  | Returned C' => elements3 2 2 C'
  | Thrown _ => []
  end = [[2; 1]; [2; 2]]%Z.
Proof. split; reflexivity. Qed.

(** With [k = 0], a [NaN] for [alpha] and operands full of [NaN] do
    not reach [C]. *)
Example gemm_k_zero_over_nan :
  match run3 gemm_2x2_k0_nan ones2 with
  | Returned C' => elements3 2 2 C'
  | Thrown _ => []
  end = [[Num 2; Num 2]; [Num 2; Num 2]].
Proof. reflexivity. Qed.

(** The enumeration checks of the tests: [syrk] with [Op('C')] and
    [herk] with [Op('T')] signal [InvalidArgument]. *)
Example rank_k_rejects_trans :
  run3 (syrk_call Upper ConjTrans 1 1 1%Z ones2 1%Z) ones2
  = Thrown InvalidArgument /\
  run3 (herk_call Upper Trans 1 1 1%Z ones2 1%Z) ones2
  = Thrown InvalidArgument.
Proof. split; reflexivity. Qed.

(** C9: for every Level-2 and Level-3 kernel with a [beta], a call with
    [beta = 0] does not read its destination: the elements it writes
    are the same for any two initial contents of the destination, and
    the elements it does not write are left as they were. *)
Theorem beta_zero_destination_not_read
    {T : Type} {S : Scalar T} {Z0 : ZeroTest T} :
  (forall (c : level2_call T) (y1 y2 : nat -> T),
     beta2 c = zero ->
     exists r1 r2,
       run2 c y1 = Returned r1 /\ run2 c y2 = Returned r2 /\
       (forall i, written2 c i = true -> r1 i = r2 i) /\
       (forall i, written2 c i = false -> r1 i = y1 i /\ r2 i = y2 i))
  /\
  (forall (c : level3_call T) (C1 C2 : nat -> nat -> T),
     beta3 c = zero ->
     valid3 c = true ->
     exists R1 R2,
       run3 c C1 = Returned R1 /\ run3 c C2 = Returned R2 /\
       (forall i j, referenced3 c i j = true -> R1 i j = R2 i j) /\
       (forall i j, referenced3 c i j = false ->
                    R1 i j = C1 i j /\ R2 i j = C2 i j)).
Proof.
  split.
  - intros c y1 y2 Hb. destruct c; simpl in Hb; subst beta; simpl;
      eexists _, _; (split; [reflexivity|]); (split; [reflexivity|]); split;
      intros i W.
    + apply gemv_elements_beta_zero. exact W.
    + split; apply gemv_elements_frame; exact W.
    + apply square_mv_beta_zero. exact W.
    + unfold square_mv. rewrite W. split; reflexivity.
    + apply square_mv_beta_zero. exact W.
    + unfold square_mv. rewrite W. split; reflexivity.
  - intros c C1 C2 Hb Hv. unfold run3. rewrite Hv.
    eexists _, _. split; [reflexivity|]. split; [reflexivity|]. split.
    + intros i j W. rewrite W. apply update3_beta_zero. exact Hb.
    + intros i j W. rewrite W. split; reflexivity.
Qed.

(** The section "y does not need to be set if beta = 0" of the [gemv]
    tests: a destination of [NaN] and one of ones give the same [y]. *)
Lemma beta_zero_destination_not_read_witness :
  exists r1 r2,
    run2 gemv_2x2_beta0 nans1 = Returned r1 /\
    run2 gemv_2x2_beta0 ones1 = Returned r2 /\
    r1 0 = r2 0 /\ r1 1 = r2 1.
Proof.
  destruct (proj1 beta_zero_destination_not_read
              gemv_2x2_beta0 nans1 ones1)
    as [r1 [r2 [E1 [E2 [W _]]]]].
  - reflexivity.
  - exists r1, r2. split; [exact E1|]. split; [exact E2|].
    split; [apply (W 0) | apply (W 1)]; reflexivity.
Defined.

(** In numbers: the destination holds no [NaN] after the call. *)
Example gemv_beta_zero_over_nan :
  match run2 gemv_2x2_beta0 nans1 with
  | Returned y => elements2 2 y
  | Thrown _ => []
  end = [Num 2; Num 2] /\
  match run2 gemv_2x2_beta0 nans1 with
  | Returned y => existsb is_nan (elements2 2 y)
  | Thrown _ => true
  end = false.
Proof. split; reflexivity. Qed.

Example hemv_beta_zero_over_nan :
  match run2 hemv_2x2_beta0 nans1 with
  | Returned y => elements2 2 y
  | Thrown _ => []
  end = [Num 2; Num 2].
Proof. reflexivity. Qed.

Example gemm_beta_zero_over_nan :
  match run3 gemm_2x2_beta0 nans2 with
  | Returned C' => elements3 2 2 C'
  | Thrown _ => []
  end = [[Num 2; Num 2]; [Num 2; Num 2]].
Proof. reflexivity. Qed.

(** With [beta = 1] the same destination does reach the result. *)
Example gemv_beta_one_over_nan :
  match run2 (gemv_call NoTrans 2 2 (Num 1) ones2 ones1 (Num 1)) nans1 with
  | Returned y => elements2 2 y
  | Thrown _ => []
  end = [NaN; NaN].
Proof. reflexivity. Qed.

(* ================================================================== *)
(** * Further properties of [larf] and of the adapted view *)
(* ================================================================== *)

Lemma access_denied_false_iff (p : MatrixAccessPolicy) :
  access_denied dense p = false <-> p = Dense.
Proof.
  destruct p; simpl; split; intro E; try reflexivity; discriminate.
Qed.

Lemma gemv_elements_ext {T : Type} {S : Scalar T} (trans : Op) (m n : nat) (alpha beta : T)
    (A : nat -> nat -> T) (x x' y : nat -> T) (i : nat) :
  (forall j, x j = x' j) ->
  gemv_elements trans m n alpha A x beta y i =
  gemv_elements trans m n alpha A x' beta y i.
Proof.
  intro E. unfold gemv_elements.
  destruct (Nat.eqb m 0 || Nat.eqb n 0); [reflexivity|].
  destruct (Nat.ltb i _); [|reflexivity].
  f_equal. f_equal. apply sum_upto_ext. intros j _. rewrite E. reflexivity.
Qed.

(** [larf] returns exactly when [side] is one of the two enumerators
    and [C] grants dense write access; in every other case it throws
    [InvalidArgument] and leaves [tau], [C] and [work] alone. *)
Theorem larf_returns_iff
    {T : Type} {S : Scalar T} {vector_t : Type} {VV : VectorView T vector_t}
    (side : Side) (v : vector_t) (s : larf_refs T) :
  (fst (larf side v s) = Returned tt <->
   (side = Left \/ side = Right) /\ write_policy (C s) = Dense) /\
  (fst (larf side v s) <> Returned tt ->
   larf side v s = (Thrown InvalidArgument, s)).
Proof.
  destruct (access_denied dense (write_policy (C s))) eqn:HD.
  - rewrite (larf_access_denied side v s HD). simpl. split.
    + split; [discriminate|]. intros [_ E]. rewrite E in HD. discriminate.
    + reflexivity.
  - apply access_denied_false_iff in HD. destruct side as [ | | raw].
    + rewrite (larf_Left_run v s HD). simpl. split.
      * split; [intros _; split; [left; reflexivity | exact HD]
               | reflexivity].
      * intro N. exfalso. apply N. reflexivity.
    + rewrite (larf_Right_run v s HD). simpl. split.
      * split; [intros _; split; [right; reflexivity | exact HD]
               | reflexivity].
      * intro N. exfalso. apply N. reflexivity.
    + rewrite (larf_bad_side (Side_other raw) v s) by discriminate.
      simpl. split.
      * split; [discriminate|]. intros [[E | E] _]; discriminate.
      * reflexivity.
Qed.

(** In the model with a [tau] of its own: a call keeps the shape and
    the write policy of [C] and the length of [work], and a second call
    returns exactly when the first one does. *)
Lemma larf_keeps_shape
    {T : Type} {S : Scalar T} {vector_t : Type} {VV : VectorView T vector_t}
    (side : Side) (v : vector_t) (s : larf_refs T) :
  nrows (C (snd (larf side v s))) = nrows (C s) /\
  ncols (C (snd (larf side v s))) = ncols (C s) /\
  write_policy (C (snd (larf side v s))) = write_policy (C s) /\
  size (work (snd (larf side v s))) = size (work s) /\
  tau (snd (larf side v s)) = tau s /\
  fst (larf_twice side v s) = fst (larf side v s).
Proof.
  destruct (access_denied dense (write_policy (C s))) eqn:HD.
  - unfold larf_twice, bind.
    rewrite (larf_access_denied side v s HD). simpl. repeat split.
  - apply access_denied_false_iff in HD. destruct side as [ | | raw].
    + unfold larf_twice, bind. rewrite (larf_Left_run v s HD). simpl.
      repeat split. rewrite larf_Left_run by exact HD. reflexivity.
    + unfold larf_twice, bind. rewrite (larf_Right_run v s HD). simpl.
      repeat split. rewrite larf_Right_run by exact HD. reflexivity.
    + unfold larf_twice, bind.
      rewrite (larf_bad_side (Side_other raw) v s) by discriminate.
      simpl. repeat split.
Qed.

(** [larf] never reads [v[0]]: two vectors that agree from index [1] on
    give the same outcome, the same elements of [C] and of [work], and
    the same kernel calls. *)
Theorem larf_ignores_first_element
    {T : Type} {S : Scalar T} {vector_t : Type} {VV : VectorView T vector_t}
    (side : Side) (v v' : vector_t) (s : larf_refs T) :
  (forall i, 1 <= i -> elt v i = elt v' i) ->
  fst (larf side v s) = fst (larf side v' s) /\
  (forall i j, entry (C (snd (larf side v s))) i j
               = entry (C (snd (larf side v' s))) i j) /\
  (forall i, elt (work (snd (larf side v s))) i
             = elt (work (snd (larf side v' s))) i) /\
  calls (snd (larf side v s)) = calls (snd (larf side v' s)).
Proof.
  intro E.
  assert (E2 : forall i, starts_with_one_elt (starts_with_one v) i
                         = starts_with_one_elt (starts_with_one v') i).
  { intro i. unfold starts_with_one_elt. simpl.
    destruct i as [|i]; [reflexivity|]. apply E. lia. }
  destruct (access_denied dense (write_policy (C s))) eqn:HD.
  - rewrite !(larf_access_denied side _ s HD). repeat split.
  - apply access_denied_false_iff in HD. destruct side as [ | | raw].
    + rewrite !(larf_Left_run _ s HD). simpl.
      split; [reflexivity|]. split; [|split; [|reflexivity]].
      * intros i j.
        destruct (Nat.ltb i (nrows (C s)) && Nat.ltb j (ncols (C s)));
          [|reflexivity].
        rewrite (E2 i).
        rewrite (gemv_elements_ext ConjTrans _ _ _ _ _ _ _ _ j E2).
        reflexivity.
      * intro i. apply gemv_elements_ext. exact E2.
    + rewrite !(larf_Right_run _ s HD). simpl.
      split; [reflexivity|]. split; [|split; [|reflexivity]].
      * intros i j.
        destruct (Nat.ltb i (nrows (C s)) && Nat.ltb j (ncols (C s)));
          [|reflexivity].
        rewrite (E2 j).
        rewrite (gemv_elements_ext NoTrans _ _ _ _ _ _ _ _ i E2).
        reflexivity.
      * intro i. apply gemv_elements_ext. exact E2.
    + rewrite !(larf_bad_side (Side_other raw) _ s) by discriminate.
      repeat split.
Qed.

(** The caller's [[5; 3]] and [[9; 3]] differ only at index [0]. *)
Lemma larf_ignores_first_element_witness :
  to_rows (C (snd (larf Left v_5_3 (refs_Z 1 identity_Z)))) =
  to_rows (C (snd (larf Left v_9_3 (refs_Z 1 identity_Z)))) /\
  entry (C (snd (larf Left v_5_3 (refs_Z 1 identity_Z)))) 1 1 =
  entry (C (snd (larf Left v_9_3 (refs_Z 1 identity_Z)))) 1 1.
Proof.
  split; [reflexivity|].
  apply (larf_ignores_first_element Left v_5_3 v_9_3 (refs_Z 1 identity_Z)).
  intros i Hi. destruct i as [|[|i]]; [lia | reflexivity | reflexivity].
Defined.

(** A matrix without rows or without columns: [larf] still returns
    after its two calls, and every element of [C] and of [work] is as
    before. *)
Theorem larf_on_empty_matrix
    {T : Type} {S : Scalar T} {vector_t : Type} {VV : VectorView T vector_t}
    (side : Side) (v : vector_t) (s : larf_refs T) :
  side = Left \/ side = Right ->
  write_policy (C s) = Dense ->
  nrows (C s) = 0 \/ ncols (C s) = 0 ->
  fst (larf side v s) = Returned tt /\
  (forall i j, entry (C (snd (larf side v s))) i j = entry (C s) i j) /\
  (forall i, elt (work (snd (larf side v s))) i = elt (work s) i) /\
  length (calls (snd (larf side v s))) = length (calls s) + 2.
Proof.
  intros Hside HD Hdim.
  assert (Q : Nat.eqb (nrows (C s)) 0 || Nat.eqb (ncols (C s)) 0 = true).
  { apply orb_true_iff. destruct Hdim as [E | E]; rewrite E; auto. }
  assert (R : forall i j,
             Nat.ltb i (nrows (C s)) && Nat.ltb j (ncols (C s)) = false).
  { intros i j. apply andb_false_iff.
    destruct Hdim as [E | E]; rewrite E; [left | right];
      apply Nat.ltb_ge; lia. }
  destruct Hside as [-> | ->].
  - rewrite (larf_Left_run v s HD). simpl.
    split; [reflexivity|]. split; [|split].
    + intros i j. rewrite R. reflexivity.
    + intro i. unfold gemv_elements. rewrite Q. reflexivity.
    + rewrite !length_app. simpl. lia.
  - rewrite (larf_Right_run v s HD). simpl.
    split; [reflexivity|]. split; [|split].
    + intros i j. rewrite R. reflexivity.
    + intro i. unfold gemv_elements. rewrite Q. reflexivity.
    + rewrite !length_app. simpl. lia.
Qed.

Lemma larf_on_empty_matrix_witness :
  fst (larf Right v_5_3 (refs_Z 1 no_columns_Z)) = Returned tt /\
  to_list (work (snd (larf Right v_5_3 (refs_Z 1 no_columns_Z)))) = [7; 7]%Z.
Proof.
  destruct (larf_on_empty_matrix Right v_5_3 (refs_Z 1 no_columns_Z))
    as [R _].
  - right. reflexivity.
  - reflexivity.
  - right. reflexivity.
  - split; [exact R | reflexivity].
Defined.


(** Adapting an adapted view changes nothing: it has the same length
    and the same elements, and [larf] on it does what [larf] does on
    the vector itself. *)
Theorem starts_with_one_twice
    {T : Type} {S : Scalar T} {vector_t : Type} {VV : VectorView T vector_t}
    (v : vector_t) :
  size (starts_with_one (starts_with_one v)) = size (starts_with_one v) /\
  (forall i, elt (starts_with_one (starts_with_one v)) i
             = elt (starts_with_one v) i) /\
  forall (side : Side) (s : larf_refs T),
    fst (larf side (starts_with_one v) s) = fst (larf side v s) /\
    (forall i j, entry (C (snd (larf side (starts_with_one v) s))) i j
                 = entry (C (snd (larf side v s))) i j) /\
    (forall i, elt (work (snd (larf side (starts_with_one v) s))) i
               = elt (work (snd (larf side v s))) i).
Proof.
  split; [reflexivity|]. split.
  - intro i. destruct i; reflexivity.
  - intros side s.
    assert (E2 : forall i,
               starts_with_one_elt (starts_with_one (starts_with_one v)) i
               = starts_with_one_elt (starts_with_one v) i).
    { intro i. destruct i; reflexivity. }
    destruct (access_denied dense (write_policy (C s))) eqn:HD.
    + rewrite !(larf_access_denied side _ s HD). repeat split.
    + apply access_denied_false_iff in HD. destruct side as [ | | raw].
      * rewrite !(larf_Left_run _ s HD). simpl.
        split; [reflexivity|]. split.
        -- intros i j.
           destruct (Nat.ltb i (nrows (C s)) && Nat.ltb j (ncols (C s)));
             [|reflexivity].
           rewrite (E2 i).
           rewrite (gemv_elements_ext ConjTrans _ _ _ _ _ _ _ _ j E2).
           reflexivity.
        -- intro i. apply gemv_elements_ext. exact E2.
      * rewrite !(larf_Right_run _ s HD). simpl.
        split; [reflexivity|]. split.
        -- intros i j.
           destruct (Nat.ltb i (nrows (C s)) && Nat.ltb j (ncols (C s)));
             [|reflexivity].
           rewrite (E2 j).
           rewrite (gemv_elements_ext NoTrans _ _ _ _ _ _ _ _ i E2).
           reflexivity.
        -- intro i. apply gemv_elements_ext. exact E2.
      * rewrite !(larf_bad_side (Side_other raw) _ s) by discriminate.
        repeat split.
Qed.

Section Scratch.
Context {T : Type} {S : Scalar T} {Z0 : ZeroTest T}.

(** With [beta = 0], a written element of [gemv] is [alpha] times the
    sum, with no trace of [y]. *)
Lemma gemv_elements_written (trans : Op) (m n : nat) (alpha : T)
    (A : nat -> nat -> T) (x y : nat -> T) (i : nat) :
  0 < m -> 0 < n ->
  i < match trans with NoTrans => m | _ => n end ->
  gemv_elements trans m n alpha A x zero y i =
  mul alpha
      (sum_upto (match trans with NoTrans => n | _ => m end)
                (fun j => mul (op_entry trans A i j) (x j))).
Proof.
  intros Hm Hn Hi. unfold gemv_elements.
  rewrite (eqb_0_false _ Hm), (eqb_0_false _ Hn). simpl.
  rewrite (ltb_true _ _ Hi). apply blend_beta_zero.
Qed.

Lemma in_range_inv (i j m n : nat) :
  Nat.ltb i m && Nat.ltb j n = true -> i < m /\ j < n.
Proof.
  intro E. apply andb_true_iff in E. destruct E as [A B].
  apply Nat.ltb_lt in A. apply Nat.ltb_lt in B. split; assumption.
Qed.

End Scratch.

(** [work] is scratch space: whatever it holds before the call, the
    outcome and every element of [C] after the call are the same, and
    so is every element of the product that [work] receives. *)
Theorem larf_work_is_scratch
    {T : Type} {S : Scalar T} {Z0 : ZeroTest T}
    {vector_t : Type} {VV : VectorView T vector_t}
    (side : Side) (v : vector_t) (s : larf_refs T) (w' : vector T) :
  fst (larf side v (with_work w' s)) = fst (larf side v s) /\
  (forall i j, entry (C (snd (larf side v (with_work w' s)))) i j
               = entry (C (snd (larf side v s))) i j) /\
  (side = Left \/ side = Right ->
   write_policy (C s) = Dense ->
   0 < reflected_length side (C s) ->
   forall k, k < product_length side (C s) ->
     elt (work (snd (larf side v (with_work w' s)))) k
     = elt (work (snd (larf side v s))) k).
Proof.
  destruct (access_denied dense (write_policy (C s))) eqn:HD.
  - rewrite (larf_access_denied side v s HD).
    rewrite (larf_access_denied side v (with_work w' s)) by exact HD.
    simpl. split; [reflexivity|]. split; [reflexivity|].
    intros _ E. rewrite E in HD. discriminate.
  - apply access_denied_false_iff in HD. destruct side as [ | | raw].
    + rewrite (larf_Left_run v s HD).
      rewrite (larf_Left_run v (with_work w' s)) by exact HD. simpl.
      split; [reflexivity|]. split.
      * intros i j.
        destruct (Nat.ltb i (nrows (C s)) && Nat.ltb j (ncols (C s)))
          eqn:R; [|reflexivity].
        apply in_range_inv in R. destruct R as [Hi Hj].
        rewrite !(gemv_elements_written ConjTrans) by lia. reflexivity.
      * intros _ _ Hm k Hk. simpl in Hm, Hk.
        rewrite !(gemv_elements_written ConjTrans) by lia. reflexivity.
    + rewrite (larf_Right_run v s HD).
      rewrite (larf_Right_run v (with_work w' s)) by exact HD. simpl.
      split; [reflexivity|]. split.
      * intros i j.
        destruct (Nat.ltb i (nrows (C s)) && Nat.ltb j (ncols (C s)))
          eqn:R; [|reflexivity].
        apply in_range_inv in R. destruct R as [Hi Hj].
        rewrite !(gemv_elements_written NoTrans) by lia. reflexivity.
      * intros _ _ Hn k Hk. simpl in Hn, Hk.
        rewrite !(gemv_elements_written NoTrans) by lia. reflexivity.
    + rewrite (larf_bad_side (Side_other raw) v s) by discriminate.
      rewrite (larf_bad_side (Side_other raw) v (with_work w' s))
        by discriminate.
      simpl. split; [reflexivity|]. split; [reflexivity|].
      intros [E | E]; discriminate.
Qed.

(** A workspace full of [NaN] is as good as any other. *)
Lemma larf_work_is_scratch_witness :
  entry (C (snd (larf Left v_nan_5_3
                   (with_work nan_work (refs_nan (Num 1) identity_nan))))) 1 1
  = entry (C (snd (larf Left v_nan_5_3 (refs_nan (Num 1) identity_nan)))) 1 1
  /\
  to_rows (C (snd (larf Left v_nan_5_3
                     (with_work nan_work (refs_nan (Num 1) identity_nan)))))
  = [[Num 0; Num (-3)]; [Num (-3); Num (-8)]].
Proof.
  split; [|reflexivity].
  apply (larf_work_is_scratch Left v_nan_5_3
           (refs_nan (Num 1) identity_nan) nan_work).
Defined.

Lemma op_sum_ext {T : Type} {S : Scalar T} (trans : Op) (n i : nat)
    (A A' : nat -> nat -> T) (x : nat -> T) :
  (forall k, op_entry trans A i k = op_entry trans A' i k) ->
  sum_upto n (fun k => mul (op_entry trans A i k) (x k)) =
  sum_upto n (fun k => mul (op_entry trans A' i k) (x k)).
Proof.
  intro E. apply sum_upto_ext. intros k _. rewrite E. reflexivity.
Qed.

(** A reflection from the left works column by column, and one from the
    right row by row: when two matrices of the same shape agree on
    column [j] (row [i]), so do the results, whatever the other columns
    (rows) and the workspaces hold. *)
Theorem larf_column_by_column
    {T : Type} {S : Scalar T} {Z0 : ZeroTest T}
    {vector_t : Type} {VV : VectorView T vector_t}
    (v : vector_t) (s s' : larf_refs T) :
  write_policy (C s) = Dense -> write_policy (C s') = Dense ->
  nrows (C s) = nrows (C s') -> ncols (C s) = ncols (C s') ->
  tau s = tau s' ->
  (forall j,
     (forall i, entry (C s) i j = entry (C s') i j) ->
     forall i, entry (C (snd (larf Left v s))) i j
               = entry (C (snd (larf Left v s'))) i j) /\
  (forall i,
     (forall j, entry (C s) i j = entry (C s') i j) ->
     forall j, entry (C (snd (larf Right v s))) i j
               = entry (C (snd (larf Right v s'))) i j).
Proof.
  intros HD HD' Em En Et. split.
  - intros j Ecol i.
    rewrite (larf_Left_run v s HD), (larf_Left_run v s' HD'). simpl.
    rewrite <- Em, <- En, <- Et, <- (Ecol i).
    destruct (Nat.ltb i (nrows (C s)) && Nat.ltb j (ncols (C s)))
      eqn:R; [|reflexivity].
    apply in_range_inv in R. destruct R as [Hi Hj].
    rewrite !(gemv_elements_written ConjTrans) by lia.
    rewrite (op_sum_ext ConjTrans (nrows (C s)) j
               (entry (C s)) (entry (C s'))); [reflexivity|].
    intro k. simpl. rewrite (Ecol k). reflexivity.
  - intros i Erow j.
    rewrite (larf_Right_run v s HD), (larf_Right_run v s' HD'). simpl.
    rewrite <- Em, <- En, <- Et, <- (Erow j).
    destruct (Nat.ltb i (nrows (C s)) && Nat.ltb j (ncols (C s)))
      eqn:R; [|reflexivity].
    apply in_range_inv in R. destruct R as [Hi Hj].
    rewrite !(gemv_elements_written NoTrans) by lia.
    rewrite (op_sum_ext NoTrans (ncols (C s)) i
               (entry (C s)) (entry (C s'))); [reflexivity|].
    intro k. simpl. apply Erow.
Qed.

(** [wide_Z] and [wide_Z_other_column] agree on columns 0 and 2. *)
Lemma larf_column_by_column_witness :
  entry (C (snd (larf Left v_5_3 (refs_Z_wide 2 wide_Z)))) 1 2
  = entry (C (snd (larf Left v_5_3 (refs_Z_wide 2 wide_Z_other_column)))) 1 2.
Proof.
  refine (proj1 (larf_column_by_column v_5_3 (refs_Z_wide 2 wide_Z)
                   (refs_Z_wide 2 wide_Z_other_column) _ _ _ _ _) 2 _ 1);
    try reflexivity.
  intro i. destruct i as [|[|i]]; reflexivity.
Defined.

Section ReflectorAlgebra.
Context {T : Type} {S : Scalar T} {L : ScalarLaws T}.
Context {vector_t : Type} {VV : VectorView T vector_t}.

Add Ring scalar_ring_reflector : (@scalar_ring T S L).

(** A reflection with [t1] followed by one with [t2], same [x]. *)
Lemma reflect_left_then (m : nat) (t1 t2 : T) (x : nat -> T)
    (c c1 : nat -> nat -> T) (i j : nat) :
  (forall i', i' < m -> c1 i' j = reflect_left m t1 x c i' j) ->
  i < m ->
  reflect_left m t2 x c1 i j =
  reflect_left m (sub (add t1 t2) (mul (mul t1 t2) (norm2 m x))) x c i j.
Proof.
  intros E Hi. unfold reflect_left at 1.
  rewrite (CHx_reflect_left m t1 x c c1 j E), (E i Hi).
  unfold reflect_left.
  rewrite conj_sub, !conj_mul, conj_conj, conj_norm2.
  unfold sub. ring.
Qed.

Lemma reflect_right_then (n : nat) (t1 t2 : T) (x : nat -> T)
    (c c1 : nat -> nat -> T) (i j : nat) :
  (forall j', j' < n -> c1 i j' = reflect_right n t1 x c i j') ->
  j < n ->
  reflect_right n t2 x c1 i j =
  reflect_right n (sub (add t1 t2) (mul (mul t1 t2) (norm2 n x))) x c i j.
Proof.
  intros E Hj. unfold reflect_right at 1.
  rewrite (Cx_reflect_right n t1 x c c1 i E), (E j Hj).
  unfold reflect_right, sub. ring.
Qed.

Lemma compose_scalar_comm (t1 t2 N : T) :
  sub (add t1 t2) (mul (mul t1 t2) N) = sub (add t2 t1) (mul (mul t2 t1) N).
Proof. unfold sub. ring. Qed.

Lemma vHv_norm2 (v : vector_t) (m : nat) :
  size v = m -> vHv v = norm2 m (elt (starts_with_one v)).
Proof.
  intro E. unfold vHv. simpl. unfold starts_with_one_size. simpl.
  rewrite E. reflexivity.
Qed.

(** [C x] for the conjugate transpose is the conjugate of [C^H x]. *)
Lemma CHx_conj_transpose (n : nat) (c : nat -> nat -> T) (x : nat -> T)
    (i : nat) :
  CHx n (fun a b => conj (c b a)) x i = Cx n c x i.
Proof.
  unfold CHx, Cx. apply sum_upto_ext. intros l _.
  rewrite conj_conj. reflexivity.
Qed.

Lemma reflect_duality (n : nat) (t : T) (x : nat -> T)
    (c : nat -> nat -> T) (i j : nat) :
  reflect_right n t x c i j =
  conj (reflect_left n (conj t) x (fun a b => conj (c b a)) j i).
Proof.
  unfold reflect_right, reflect_left.
  rewrite CHx_conj_transpose.
  rewrite conj_sub, !conj_mul, !conj_conj.
  unfold sub. ring.
Qed.

(** Two reflections with the same [v] compose into one: applying
    [larf] with [tau = t1] and then with [tau = t2] gives the matrix
    that one application with [tau = t1 + t2 - t1*t2*(v^H v)] gives;
    so the order of [t1] and [t2] does not matter. *)
Theorem larf_composes
    (side : Side) (v : vector_t) (s : larf_refs T) (t1 t2 : T) :
  side = Left \/ side = Right ->
  write_policy (C s) = Dense ->
  size v = reflected_length side (C s) ->
  same_matrix
    (C (snd (larf side v (with_tau t2 (snd (larf side v (with_tau t1 s)))))))
    (C (snd (larf side v
               (with_tau (sub (add t1 t2) (mul (mul t1 t2) (vHv v))) s))))
  /\
  same_matrix
    (C (snd (larf side v (with_tau t2 (snd (larf side v (with_tau t1 s)))))))
    (C (snd (larf side v (with_tau t1 (snd (larf side v (with_tau t2 s))))))).
Proof.
  intros Hside HD Hsize.
  assert (Key : forall a b i j,
             i < nrows (C s) -> j < ncols (C s) ->
             entry (C (snd (larf side v
                              (with_tau b (snd (larf side v (with_tau a s)))))))
                   i j
             = entry (C (snd (larf side v
                         (with_tau (sub (add a b) (mul (mul a b) (vHv v)))
                                   s)))) i j).
  { intros a b i j Hi Hj. destruct Hside as [-> | ->].
    - destruct (larf_Left_shape v (with_tau a s) HD)
        as [_ [Em [En [HD1 _]]]].
      rewrite (larf_Left_entry v (with_tau b _) i j) by
          (simpl; try rewrite Em; try rewrite En; assumption).
      rewrite (larf_Left_entry v (with_tau _ s) i j HD Hi Hj).
      simpl. rewrite Em. simpl.
      rewrite (vHv_norm2 v (nrows (C s)) Hsize).
      apply reflect_left_then; [|exact Hi].
      intros i' Hi'.
      apply (larf_Left_entry v (with_tau a s) i' j HD Hi' Hj).
    - destruct (larf_Right_shape v (with_tau a s) HD)
        as [_ [Em [En [HD1 _]]]].
      rewrite (larf_Right_entry v (with_tau b _) i j) by
          (simpl; try rewrite Em; try rewrite En; assumption).
      rewrite (larf_Right_entry v (with_tau _ s) i j HD Hi Hj).
      simpl. rewrite En. simpl.
      rewrite (vHv_norm2 v (ncols (C s)) Hsize).
      apply reflect_right_then; [|exact Hj].
      intros j' Hj'.
      apply (larf_Right_entry v (with_tau a s) i j' HD Hi Hj'). }
  assert (Shape : forall a b,
             nrows (C (snd (larf side v
                              (with_tau b (snd (larf side v (with_tau a s)))))))
             = nrows (C s) /\
             ncols (C (snd (larf side v
                              (with_tau b (snd (larf side v (with_tau a s)))))))
             = ncols (C s)).
  { intros a b.
    destruct (larf_keeps_shape side v (with_tau a s)) as [Em [En _]].
    destruct (larf_keeps_shape side v
                (with_tau b (snd (larf side v (with_tau a s)))))
      as [Em2 [En2 _]].
    simpl in *. rewrite Em2, En2, Em, En. split; reflexivity. }
  assert (Shape1 : forall a,
             nrows (C (snd (larf side v (with_tau a s)))) = nrows (C s) /\
             ncols (C (snd (larf side v (with_tau a s)))) = ncols (C s)).
  { intro a. destruct (larf_keeps_shape side v (with_tau a s))
      as [Em [En _]]. simpl in *. split; assumption. }
  split.
  - destruct (Shape t1 t2) as [Em En].
    destruct (Shape1 (sub (add t1 t2) (mul (mul t1 t2) (vHv v))))
      as [Em1 En1].
    split; [rewrite Em, Em1; reflexivity|].
    split; [rewrite En, En1; reflexivity|].
    intros i j Hi Hj. rewrite Em in Hi. rewrite En in Hj.
    apply Key; assumption.
  - destruct (Shape t1 t2) as [Em En]. destruct (Shape t2 t1) as [Em' En'].
    split; [rewrite Em, Em'; reflexivity|].
    split; [rewrite En, En'; reflexivity|].
    intros i j Hi Hj. rewrite Em in Hi. rewrite En in Hj.
    rewrite (Key t1 t2 i j Hi Hj), (Key t2 t1 i j Hi Hj).
    rewrite (compose_scalar_comm t1 t2). reflexivity.
Qed.

(** The two sides are each other's conjugate transpose: applying the
    reflector from the right to [C] gives the conjugate transpose of
    what applying it from the left, with [conj(tau)], gives on [C^H]. *)
Theorem larf_Right_by_Left (v : vector_t) (s : larf_refs T) :
  write_policy (C s) = Dense ->
  same_matrix
    (C (snd (larf Right v s)))
    (conj_transpose
       (C (snd (larf Left v
                  (with_tau (conj (tau s))
                            (with_C (conj_transpose (C s)) s)))))).
Proof.
  intro HD.
  destruct (larf_Right_shape v s HD) as [_ [Em [En _]]].
  assert (HD' : write_policy
                  (C (with_tau (conj (tau s))
                               (with_C (conj_transpose (C s)) s))) = Dense)
    by exact HD.
  destruct (larf_Left_shape v _ HD') as [_ [Em' [En' _]]].
  split; [|split].
  - simpl. rewrite Em. simpl in En'. rewrite En'. reflexivity.
  - simpl. rewrite En. simpl in Em'. rewrite Em'. reflexivity.
  - intros i j Hi Hj. rewrite Em in Hi. rewrite En in Hj.
    rewrite (larf_Right_entry v s i j HD Hi Hj).
    change (entry (conj_transpose ?A) i j) with (conj (entry A j i)).
    rewrite (larf_Left_entry v _ j i HD') by (simpl; assumption).
    simpl. apply reflect_duality.
Qed.

(** The reflector on its own vector: applied from the left to the
    one-column matrix that holds the adapted [v], [larf] multiplies it
    by [1 - tau*(v^H v)]; when [tau*(v^H v) = 2] it turns [v] into
    [-v]. *)
Theorem larf_on_its_own_vector (v : vector_t) (s : larf_refs T) (i : nat) :
  i < size v ->
  entry (C (snd (larf Left v
                   (with_C (column_matrix (starts_with_one v)) s)))) i 0
  = mul (sub one (mul (tau s) (vHv v))) (elt (starts_with_one v) i)
  /\
  (mul (tau s) (vHv v) = two ->
   entry (C (snd (larf Left v
                    (with_C (column_matrix (starts_with_one v)) s)))) i 0
   = neg (elt (starts_with_one v) i)).
Proof.
  intro Hi.
  assert (E : entry (C (snd (larf Left v
                   (with_C (column_matrix (starts_with_one v)) s)))) i 0
              = mul (sub one (mul (tau s) (vHv v)))
                    (elt (starts_with_one v) i)).
  { rewrite (larf_Left_entry v _ i 0) by
        (try reflexivity; simpl; try exact Hi; lia).
    simpl. unfold reflect_left.
    change (CHx (starts_with_one_size (starts_with_one v))
                (fun i0 _ : nat => starts_with_one_elt (starts_with_one v) i0)
                (starts_with_one_elt (starts_with_one v)) 0)
      with (vHv v).
    assert (N : conj (vHv v) = vHv v) by apply conj_norm2.
    rewrite N. unfold sub. ring. }
  split; [exact E|].
  intro Htwo. rewrite E, Htwo. unfold sub, two. ring.
Qed.

(** What is orthogonal to [v] stays: a column [j] of [C] with
    [(C^H v)[j] = 0] is unchanged by the reflection from the left, and
    a row [i] with [(C v)[i] = 0] by the reflection from the right. *)
Theorem larf_fixes_orthogonal (v : vector_t) (s : larf_refs T) (k : nat) :
  write_policy (C s) = Dense ->
  (product_with_v Left v (C s) k = zero ->
   forall i, entry (C (snd (larf Left v s))) i k = entry (C s) i k) /\
  (product_with_v Right v (C s) k = zero ->
   forall j, entry (C (snd (larf Right v s))) k j = entry (C s) k j).
Proof.
  intro HD. split.
  - intros Z i.
    destruct (Nat.ltb i (nrows (C s)) && Nat.ltb k (ncols (C s))) eqn:R.
    + apply in_range_inv in R. destruct R as [Hi Hk].
      rewrite (larf_Left_entry v s i k HD Hi Hk).
      unfold reflect_left.
      replace (CHx (nrows (C s)) (entry (C s)) (elt (starts_with_one v)) k)
        with (zero : T) by (symmetry; exact Z).
      rewrite conj_zero. unfold sub. ring.
    + rewrite (larf_Left_run v s HD). simpl. rewrite R. reflexivity.
  - intros Z j.
    destruct (Nat.ltb k (nrows (C s)) && Nat.ltb j (ncols (C s))) eqn:R.
    + apply in_range_inv in R. destruct R as [Hk Hj].
      rewrite (larf_Right_entry v s k j HD Hk Hj).
      unfold reflect_right.
      replace (Cx (ncols (C s)) (entry (C s)) (elt (starts_with_one v)) k)
        with (zero : T) by (symmetry; exact Z).
      unfold sub. ring.
    + rewrite (larf_Right_run v s HD). simpl. rewrite R. reflexivity.
Qed.

End ReflectorAlgebra.

(** [tau = 1] then [tau = 2] with [v2 = [1; 3]], [v^H v = 10]: the same
    as one application with [tau = 1 + 2 - 2*10 = -17]. *)
Lemma larf_composes_witness :
  same_matrix
    (C (snd (larf Left v_5_3
               (with_tau 2%Z
                  (snd (larf Left v_5_3
                          (with_tau 1%Z (refs_Z 0 identity_Z))))))))
    (C (snd (larf Left v_5_3 (with_tau (-17)%Z (refs_Z 0 identity_Z))))).
Proof.
  destruct (larf_composes Left v_5_3 (refs_Z 0 identity_Z) 1%Z 2%Z)
    as [E _].
  - left. reflexivity.
  - reflexivity.
  - reflexivity.
  - exact E.
Defined.

Example larf_composes_2x2 :
  to_rows (C (snd (larf Left v_5_3
                     (with_tau 2%Z
                        (snd (larf Left v_5_3
                                (with_tau 1%Z (refs_Z 0 identity_Z))))))))
  = [[18; 51]; [51; 154]]%Z /\
  to_rows (C (snd (larf Left v_5_3
                     (with_tau (-17)%Z (refs_Z 0 identity_Z)))))
  = [[18; 51]; [51; 154]]%Z.
Proof. split; reflexivity. Qed.

Lemma larf_Right_by_Left_witness :
  same_matrix
    (C (snd (larf Right v_0_i (refs_gauss (Gauss 1 1) square_gauss))))
    (conj_transpose
       (C (snd (larf Left v_0_i
                  (with_tau (conj (Gauss 1 1))
                     (with_C (conj_transpose square_gauss)
                             (refs_gauss (Gauss 1 1) square_gauss))))))).
Proof.
  apply (larf_Right_by_Left v_0_i (refs_gauss (Gauss 1 1) square_gauss)).
  reflexivity.
Defined.

Example larf_Right_and_Left_gauss :
  to_rows (C (snd (larf Right v_0_i (refs_gauss (Gauss 1 1) square_gauss))))
  = [[Gauss 3 0; Gauss (-2) (-1)]; [Gauss 0 (-5); Gauss (-4) 2]] /\
  to_rows (C (snd (larf Left v_0_i
                     (with_tau (conj (Gauss 1 1))
                        (with_C (conj_transpose square_gauss)
                                (refs_gauss (Gauss 1 1) square_gauss))))))
  = [[Gauss 3 0; Gauss 0 5]; [Gauss (-2) 1; Gauss (-4) (-2)]].
Proof. split; reflexivity. Qed.

(** [v2 = [1; i]] and [tau = 1], so [tau*(v^H v) = 2]: the reflector
    sends [v2] to [-v2]. *)
Lemma larf_on_its_own_vector_witness :
  entry (C (snd (larf Left v_0_i
                   (with_C (column_matrix (starts_with_one v_0_i))
                           (refs_gauss (Gauss 1 0) identity_gauss))))) 1 0
  = Gauss 0 (-1).
Proof.
  destruct (larf_on_its_own_vector v_0_i
              (refs_gauss (Gauss 1 0) identity_gauss) 1) as [_ E].
  - simpl. lia.
  - apply E. reflexivity.
Defined.

(** Both columns of [annihilated_Z] are orthogonal to [[1; 3]]. *)
Lemma larf_fixes_orthogonal_witness :
  entry (C (snd (larf Left v_5_3 (refs_Z 4 annihilated_Z)))) 1 0
  = entry annihilated_Z 1 0.
Proof.
  destruct (larf_fixes_orthogonal v_5_3 (refs_Z 4 annihilated_Z) 0)
    as [E _].
  - reflexivity.
  - apply E. reflexivity.
Defined.

Example larf_fixes_orthogonal_2x2 :
  to_rows (C (snd (larf Left v_5_3 (refs_Z 4 annihilated_Z))))
  = [[3; 0]; [-1; 0]]%Z.
Proof. reflexivity. Qed.

Example larf_column_by_column_2x3 :
  to_rows (C (snd (larf Left v_5_3 (refs_Z_wide 2 wide_Z))))
  = [[-25; -32; -39]; [-74; -97; -120]]%Z /\
  to_rows (C (snd (larf Left v_5_3 (refs_Z_wide 2 wide_Z_other_column))))
  = [[-25; -320; -39]; [-74; -970; -120]]%Z.
Proof. split; reflexivity. Qed.

(* ================================================================== *)
(** * [larf] is additive in [C] *)
(* ================================================================== *)

Section Additive.
Context {T : Type} {S : Scalar T} {L : ScalarLaws T}.
Context {vector_t : Type} {VV : VectorView T vector_t}.

Add Ring scalar_ring_additive : (@scalar_ring T S L).

Lemma sum_upto_add (n : nat) (f g : nat -> T) :
  sum_upto n (fun i => add (f i) (g i)) =
  add (sum_upto n f) (sum_upto n g).
Proof.
  induction n as [|n IH]; simpl; [ring|]. rewrite IH. ring.
Qed.

Lemma reflect_left_add (m : nat) (t : T) (x : nat -> T)
    (a b : nat -> nat -> T) (i j : nat) :
  reflect_left m t x (fun p q => add (a p q) (b p q)) i j =
  add (reflect_left m t x a i j) (reflect_left m t x b i j).
Proof.
  unfold reflect_left, CHx.
  rewrite (sum_upto_ext m
             (fun p => mul (conj (add (a p j) (b p j))) (x p))
             (fun p => add (mul (conj (a p j)) (x p))
                           (mul (conj (b p j)) (x p))))
    by (intros p _; rewrite conj_add; ring).
  rewrite sum_upto_add, conj_add. unfold sub. ring.
Qed.

Lemma reflect_right_add (n : nat) (t : T) (x : nat -> T)
    (a b : nat -> nat -> T) (i j : nat) :
  reflect_right n t x (fun p q => add (a p q) (b p q)) i j =
  add (reflect_right n t x a i j) (reflect_right n t x b i j).
Proof.
  unfold reflect_right, Cx.
  rewrite (sum_upto_ext n
             (fun q => mul (add (a i q) (b i q)) (x q))
             (fun q => add (mul (a i q) (x q)) (mul (b i q) (x q))))
    by (intros q _; ring).
  rewrite sum_upto_add. unfold sub. ring.
Qed.

(** The reflector is additive: applying [larf] to [C + B] gives, element
    by element, the sum of what it gives on [C] and on [B]. *)
Theorem larf_additive
    (side : Side) (v : vector_t) (s : larf_refs T) (B : matrix T)
    (i j : nat) :
  side = Left \/ side = Right ->
  write_policy (C s) = Dense -> write_policy B = Dense ->
  nrows B = nrows (C s) -> ncols B = ncols (C s) ->
  i < nrows (C s) -> j < ncols (C s) ->
  entry (C (snd (larf side v (with_C (matrix_add (C s) B) s)))) i j =
  add (entry (C (snd (larf side v s))) i j)
      (entry (C (snd (larf side v (with_C B s)))) i j).
Proof.
  intros Hside HD HB Em En Hi Hj. destruct Hside as [-> | ->].
  - rewrite (larf_Left_entry v (with_C (matrix_add (C s) B) s) i j)
      by (simpl; assumption).
    rewrite (larf_Left_entry v s i j HD Hi Hj).
    rewrite (larf_Left_entry v (with_C B s) i j)
      by (simpl; try rewrite Em; try rewrite En; assumption).
    simpl. rewrite Em. apply reflect_left_add.
  - rewrite (larf_Right_entry v (with_C (matrix_add (C s) B) s) i j)
      by (simpl; assumption).
    rewrite (larf_Right_entry v s i j HD Hi Hj).
    rewrite (larf_Right_entry v (with_C B s) i j)
      by (simpl; try rewrite Em; try rewrite En; assumption).
    simpl. rewrite En. apply reflect_right_add.
Qed.

End Additive.

Lemma larf_additive_witness :
  entry (C (snd (larf Right v_4_2_5
                   (with_C (matrix_add wide_Z wide_Z_second)
                           (refs_Z 2 wide_Z))))) 1 2
  = add (entry (C (snd (larf Right v_4_2_5 (refs_Z 2 wide_Z)))) 1 2)
        (entry (C (snd (larf Right v_4_2_5
                          (with_C wide_Z_second (refs_Z 2 wide_Z))))) 1 2).
Proof.
  apply (larf_additive Right v_4_2_5 (refs_Z 2 wide_Z) wide_Z_second 1 2).
  - right. reflexivity.
  - reflexivity.
  - reflexivity.
  - reflexivity.
  - reflexivity.
  - simpl. lia.
  - simpl. lia.
Defined.
